(** * The CODAL hardware-abstraction shim [src/codal_app/microbithal.cpp]

    A shallow embedding of the parts of the shim that carry logic of their
    own: the packed touch / button event counters, the display brightness
    table and its decoder, the display rotation table, the analog-period
    query and the conversion of the data-log return codes.

    The CODAL device object [uBit] is an external library: it is an abstract
    interface here (class [Codal]), and every call the shim makes on it is a
    call of one of the interface's operations, threading the device state.
    The constants of the headers that are not part of the translated file
    ([ErrorNo.h] of CODAL, [microbithal.h] of the port) are parameters
    (classes [ErrorNo] and [HalHeader]). *)

From Stdlib Require Import ZArith Lia String.
From stdpp Require Import base option list numbers.

Local Open Scope Z_scope.

(** ** Machine integers

    [int] is the 32-bit two's-complement integer of the target, [uint16_t]
    and [uint32_t] are unsigned; a value is a [Z] and every conversion writes
    its wrap-around out. *)

Definition int_wrap (z : Z) : Z := (z + 2 ^ 31) `mod` 2 ^ 32 - 2 ^ 31.

Definition uint16_wrap (z : Z) : Z := z `mod` 2 ^ 16.

Definition uint32_wrap (z : Z) : Z := z `mod` 2 ^ 32.

Arguments int_wrap : simpl never.
Arguments uint16_wrap : simpl never.
Arguments uint32_wrap : simpl never.

(** [a[i]] on a C array: reading or writing outside the array is undefined
    behaviour, which the model reports as [None]. *)

Definition array_get {A : Type} (a : list A) (i : Z) : option A :=
  if bool_decide (0 <= i) then a !! Z.to_nat i else None.

Definition array_set {A : Type} (a : list A) (i : Z) (v : A) : option (list A) :=
  if bool_decide (0 <= i < Z.of_nat (length a)) then Some (<[Z.to_nat i := v]> a) else None.

(** ** The object tables *)

Inductive Pin : Type :=
  | P0 | P1 | P2 | P3 | P4 | P5 | P6 | P7 | P8 | P9 | P10 | P11 | P12 | P13
  | P14 | P15 | A1RX | A0SCL | A0SDA | logo | speaker | runmic | microphone
  | sda | scl | row1 | row2 | row3 | row4 | row5 | usbTx | usbRx | irq1
  | A1TX | P18 | RGB | M_A_IN1 | M_A_IN2 | M_B_IN1 | M_B_IN2 | M_MODE.

Inductive Button : Type := buttonA | buttonB.

Inductive DisplayRotation : Type :=
  | MATRIX_DISPLAY_ROTATION_0
  | MATRIX_DISPLAY_ROTATION_90
  | MATRIX_DISPLAY_ROTATION_180
  | MATRIX_DISPLAY_ROTATION_270.

Definition pin_obj : list Pin :=
  [ P0; P1; P2; P3; P4; P5; P6; P7; P8; P9; P10; P11; P12; P13; P14; P15;
    A1RX; A0SCL; A0SDA; logo; speaker; runmic; microphone; sda; scl;
    row1; row2; row3; row4; row5; usbTx; usbRx; irq1; A1TX; P18; RGB;
    M_A_IN1; M_A_IN2; M_B_IN1; M_B_IN2; M_MODE ].

Definition button_obj : list Button := [ buttonA; buttonB ].

(** ** The device layer and the header constants *)

(** The operations of [uBit] the translated functions call.  An operation
    that may change the device (reading an edge count resets it, a touch
    query may reconfigure the pin) returns the device after the call. *)
Class Codal (uBit : Type) : Type := {
  wasTouched : Pin -> uBit -> Z * uBit;
  isTouched : Pin -> uBit -> Z * uBit;
  getAnalogPeriodUs : Pin -> uBit -> Z * uBit;
  wasPressed : Button -> uBit -> Z * uBit;
  isPressed : Button -> uBit -> Z * uBit;
  getPixelValue : Z -> Z -> uBit -> Z;
  setPixelValue : Z -> Z -> Z -> uBit -> uBit;
  rotateTo : DisplayRotation -> uBit -> uBit;
  beginRow : uBit -> Z * uBit;
  endRow : uBit -> Z * uBit;
  logData : string -> string -> uBit -> Z * uBit
}.

(** The error codes of CODAL's [ErrorNo.h] that the file compares with. *)
Class ErrorNo : Type := {
  DEVICE_OK : Z;
  DEVICE_NOT_SUPPORTED : Z;
  DEVICE_NO_RESOURCES : Z
}.

(** The constants of [microbithal.h] that the file uses. *)
Class HalHeader : Type := {
  MICROBIT_HAL_PIN_LOGO : Z;
  MICROBIT_HAL_DEVICE_OK : Z;
  MICROBIT_HAL_DEVICE_NO_RESOURCES : Z;
  MICROBIT_HAL_DEVICE_ERROR : Z
}.

(** ** The static storage of the file *)

Record Hal : Type := {
  pin_pull_state : list Z;
  touch_state : list Z;
  button_state : list Z
}.

Definition hal_init : Hal :=
  {| pin_pull_state := replicate (32 + 6) 0;
     touch_state := replicate 4 0;
     button_state := replicate 2 0 |}.

Definition set_touch_state (hal : Hal) (a : list Z) : Hal :=
  {| pin_pull_state := pin_pull_state hal;
     touch_state := a;
     button_state := button_state hal |}.

Definition set_button_state (hal : Hal) (a : list Z) : Hal :=
  {| pin_pull_state := pin_pull_state hal;
     touch_state := touch_state hal;
     button_state := a |}.

(** What a poll leaves behind: the returned [int], the two [int]s behind the
    output pointers ([None] for a null pointer, which is never written), the
    static storage and the device. *)
Record Polled (uBit : Type) : Type := {
  returned : Z;
  was_out : option Z;
  num_out : option Z;
  hal_after : Hal;
  dev_after : uBit
}.

Arguments returned {uBit} _.
Arguments was_out {uBit} _.
Arguments num_out {uBit} _.
Arguments hal_after {uBit} _.
Arguments dev_after {uBit} _.

(** ** Touch pins and buttons

    An output pointer is [None] when null and [Some v] when it points to an
    [int] that holds [v] before the call. *)

Definition microbit_hal_pin_touch_state `{HC : Codal uBit} `{HH : HalHeader}
    (pin : Z) (was_touched num_touches : option Z) (hal : Hal) (dev : uBit)
    : option (Polled uBit) :=
  match was_touched, num_touches with
  | None, None =>
      p ← array_get pin_obj pin;
      let '(r, dev) := isTouched p dev in
      Some {| returned := r; was_out := None; num_out := None;
              hal_after := hal; dev_after := dev |}
  | _, _ =>
      let pin_state_index :=
        if bool_decide (pin = MICROBIT_HAL_PIN_LOGO) then 3 else pin in
      p ← array_get pin_obj pin;
      let '(t, dev) := wasTouched p dev in
      state ← array_get (touch_state hal) pin_state_index;
      let state :=
        if bool_decide (t <> 0)
        then uint16_wrap (Z.lor (int_wrap (state + int_wrap (Z.shiftl t 1))) 1)
        else state in
      let '(was_touched, state) :=
        match was_touched with
        | Some _ => (Some (Z.land state 1), uint16_wrap (Z.land state (Z.lnot 1)))
        | None => (None, state)
        end in
      let '(num_touches, state) :=
        match num_touches with
        | Some _ => (Some (Z.shiftr state 1), uint16_wrap (Z.land state 1))
        | None => (None, state)
        end in
      a ← array_set (touch_state hal) pin_state_index state;
      let '(r, dev) := isTouched p dev in
      Some {| returned := r; was_out := was_touched; num_out := num_touches;
              hal_after := set_touch_state hal a; dev_after := dev |}
  end.

Definition microbit_hal_button_state `{HC : Codal uBit}
    (button : Z) (was_pressed num_presses : option Z) (hal : Hal) (dev : uBit)
    : option (Polled uBit) :=
  b ← array_get button_obj button;
  match was_pressed, num_presses with
  | None, None =>
      let '(r, dev) := isPressed b dev in
      Some {| returned := r; was_out := None; num_out := None;
              hal_after := hal; dev_after := dev |}
  | _, _ =>
      state ← array_get (button_state hal) button;
      let '(p, dev) := wasPressed b dev in
      let state :=
        if bool_decide (p <> 0)
        then uint16_wrap (Z.lor (int_wrap (state + int_wrap (Z.shiftl p 1))) 1)
        else state in
      let '(was_pressed, state) :=
        match was_pressed with
        | Some _ => (Some (Z.land state 1), uint16_wrap (Z.land state (Z.lnot 1)))
        | None => (None, state)
        end in
      let '(num_presses, state) :=
        match num_presses with
        | Some _ => (Some (Z.shiftr state 1), uint16_wrap (Z.land state 1))
        | None => (None, state)
        end in
      a ← array_set (button_state hal) button state;
      let '(r, dev) := isPressed b dev in
      Some {| returned := r; was_out := was_pressed; num_out := num_presses;
              hal_after := set_button_state hal a; dev_after := dev |}
  end.

(** ** The display *)

(** The number of zero bits of [x] above its highest set bit, counted from
    bit [n - 1] downwards. *)
Fixpoint clz_from (n : nat) (x : Z) : Z :=
  match n with
  | O => 0
  | S k => if Z.testbit x (Z.of_nat k) then 0 else 1 + clz_from k x
  end.

(** [__builtin_clz] on a 32-bit word.  The compiler defines the result for
    a non-zero word only: on a zero word there is no result ([None]). *)
Definition builtin_clz (x : Z) : option Z :=
  if bool_decide (x = 0) then None else Some (clz_from 32 x).

Definition bright_map : list Z := [ 0; 1; 2; 4; 8; 16; 32; 64; 128; 255 ].

Definition angle_map : list DisplayRotation :=
  [ MATRIX_DISPLAY_ROTATION_0;
    MATRIX_DISPLAY_ROTATION_90;
    MATRIX_DISPLAY_ROTATION_180;
    MATRIX_DISPLAY_ROTATION_270 ].

Definition microbit_hal_display_get_pixel `{HC : Codal uBit} (x y : Z) (dev : uBit)
    : option Z :=
  let pixel := uint32_wrap (getPixelValue x y dev) in
  if bool_decide (pixel = 255) then Some 9
  else c ← builtin_clz pixel; Some (32 - c).

Definition microbit_hal_display_set_pixel `{HC : Codal uBit}
    (x y bright : Z) (dev : uBit) : option uBit :=
  let bright :=
    if bool_decide (bright < 0) then 0
    else if bool_decide (bright > 9) then 9
    else bright in
  v ← array_get bright_map bright;
  Some (setPixelValue x y v dev).

Definition microbit_hal_display_rotate `{HC : Codal uBit} (rotation : Z) (dev : uBit)
    : option uBit :=
  a ← array_get angle_map (Z.land rotation 3);
  Some (rotateTo a dev).

(** ** The analog period of a pin *)

(** [int period = pin_obj[pin]->getAnalogPeriodUs();] converts what the
    device hands back to [int]; the conversion is the identity on a value
    that is an [int] already. *)
Definition microbit_hal_pin_get_analog_period_us `{HC : Codal uBit} `{HE : ErrorNo}
    (pin : Z) (dev : uBit) : option (Z * uBit) :=
  p ← array_get pin_obj pin;
  let '(raw, dev) := getAnalogPeriodUs p dev in
  let period := int_wrap raw in
  if bool_decide (period <> DEVICE_NOT_SUPPORTED)
  then Some (period, dev)
  else Some (-1, dev).

(** ** The data log *)

Definition microbit_hal_log_convert_return_value `{HE : ErrorNo} `{HH : HalHeader}
    (result : Z) : Z :=
  if bool_decide (result = DEVICE_OK) then MICROBIT_HAL_DEVICE_OK
  else if bool_decide (result = DEVICE_NO_RESOURCES) then MICROBIT_HAL_DEVICE_NO_RESOURCES
  else MICROBIT_HAL_DEVICE_ERROR.

Definition microbit_hal_log_begin_row `{HC : Codal uBit} `{HE : ErrorNo} `{HH : HalHeader}
    (dev : uBit) : Z * uBit :=
  let '(r, dev) := beginRow dev in
  (microbit_hal_log_convert_return_value r, dev).

Definition microbit_hal_log_end_row `{HC : Codal uBit} `{HE : ErrorNo} `{HH : HalHeader}
    (dev : uBit) : Z * uBit :=
  let '(r, dev) := endRow dev in
  (microbit_hal_log_convert_return_value r, dev).

Definition microbit_hal_log_data `{HC : Codal uBit} `{HE : ErrorNo} `{HH : HalHeader}
    (key value : string) (dev : uBit) : Z * uBit :=
  let '(r, dev) := logData key value dev in
  (microbit_hal_log_convert_return_value r, dev).

(** ** The packed counter cell on its own

    The two poll functions run the same three statements on the cell they
    load: absorb the edge count, hand out and clear the flag, hand out and
    clear the count.  The statements are named here once; the lemmas
    [touch_state_poll] and [button_state_poll] below show that each function
    stores and returns exactly what they compute. *)

Definition cell_absorb (state t : Z) : Z :=
  if bool_decide (t <> 0)
  then uint16_wrap (Z.lor (int_wrap (state + int_wrap (Z.shiftl t 1))) 1)
  else state.

Definition cell_take_flag (ptr : option Z) (state : Z) : option Z * Z :=
  match ptr with
  | Some _ => (Some (Z.land state 1), uint16_wrap (Z.land state (Z.lnot 1)))
  | None => (None, state)
  end.

Definition cell_take_count (ptr : option Z) (state : Z) : option Z * Z :=
  match ptr with
  | Some _ => (Some (Z.shiftr state 1), uint16_wrap (Z.land state 1))
  | None => (None, state)
  end.

Definition cell_poll (was num : option Z) (state t : Z) : option Z * option Z * Z :=
  let state := cell_absorb state t in
  let '(w, state) := cell_take_flag was state in
  let '(n, state) := cell_take_count num state in
  (w, n, state).

(** The slot of [touch_state] that belongs to a pin. *)
Definition pin_state_index_of `{HH : HalHeader} (pin : Z) : Z :=
  if bool_decide (pin = MICROBIT_HAL_PIN_LOGO) then 3 else pin.

(** ** A scripted device

    A stand-in for the device layer that answers from a script, to run the
    functions on concrete inputs: [edges] lists the edge counts the coming
    calls of [wasTouched] / [wasPressed] report, one per call (and 0 once
    the list is used up), [active] is the current state of the input,
    [period] what [getAnalogPeriodUs] answers, [code] what the log
    operations answer, [pixels] the display image and [angle] its
    rotation. *)
Record Script : Type := {
  edges : list Z;
  active : Z;
  period : Z;
  code : Z;
  pixels : Z -> Z -> Z;
  angle : DisplayRotation
}.

Definition script (e : list Z) (a p c : Z) : Script :=
  {| edges := e; active := a; period := p; code := c;
     pixels := fun _ _ => 0; angle := MATRIX_DISPLAY_ROTATION_0 |}.

Definition script_read_edges (d : Script) : Z * Script :=
  (hd 0 (edges d),
   {| edges := tl (edges d); active := active d; period := period d;
      code := code d; pixels := pixels d; angle := angle d |}).

Definition script_set_pixel (x y v : Z) (d : Script) : Script :=
  {| edges := edges d; active := active d; period := period d; code := code d;
     pixels := fun x' y' =>
       if bool_decide (x' = x /\ y' = y) then v else pixels d x' y';
     angle := angle d |}.

Definition script_rotate (a : DisplayRotation) (d : Script) : Script :=
  {| edges := edges d; active := active d; period := period d; code := code d;
     pixels := pixels d; angle := a |}.

#[export] Instance script_codal : Codal Script := {
  wasTouched := fun _ d => script_read_edges d;
  isTouched := fun _ d => (active d, d);
  getAnalogPeriodUs := fun _ d => (period d, d);
  wasPressed := fun _ d => script_read_edges d;
  isPressed := fun _ d => (active d, d);
  getPixelValue := fun x y d => pixels d x y;
  setPixelValue := script_set_pixel;
  rotateTo := script_rotate;
  beginRow := fun d => (code d, d);
  endRow := fun d => (code d, d);
  logData := fun _ _ d => (code d, d)
}.

(** The values the two headers give the constants: [ErrorNo.h] of CODAL and
    [microbithal.h] of the port (the logo is entry 19 of [pin_obj]). *)
Definition codal_errno : ErrorNo :=
  {| DEVICE_OK := 0; DEVICE_NOT_SUPPORTED := -1002; DEVICE_NO_RESOURCES := -1005 |}.

Definition port_header : HalHeader :=
  {| MICROBIT_HAL_PIN_LOGO := 19;
     MICROBIT_HAL_DEVICE_OK := 0;
     MICROBIT_HAL_DEVICE_NO_RESOURCES := -1;
     MICROBIT_HAL_DEVICE_ERROR := -2 |}.


(** ** Vocabulary of the statements *)

(** The device after a poll that asked for an output: the edge count was
    read, then the current state. *)
Definition touch_dev_next `{HC : Codal uBit} (p : Pin) (dev : uBit) : uBit :=
  (isTouched p (wasTouched p dev).2).2.

Definition button_dev_next `{HC : Codal uBit} (b : Button) (dev : uBit) : uBit :=
  (isPressed b (wasPressed b dev).2).2.

(** The cell after a run of polls that ask for the flag only, one per edge
    batch. *)
Fixpoint cell_absorb_all (state : Z) (batches : list Z) : Z :=
  match batches with
  | [] => state
  | t :: rest => cell_absorb_all (cell_poll (Some 0) None state t).2 rest
  end.

Definition sum_batches (batches : list Z) : Z := foldr Z.add 0 batches.

(** A device code and the code the log operation hands to its caller stand
    in the three-way relation: success to success, no resources to no
    resources, anything else to the generic error. *)
Definition collapses `{HE : ErrorNo} `{HH : HalHeader} (device_code hal_code : Z) : Prop :=
  (device_code = DEVICE_OK -> hal_code = MICROBIT_HAL_DEVICE_OK) /\
  (device_code = DEVICE_NO_RESOURCES -> hal_code = MICROBIT_HAL_DEVICE_NO_RESOURCES) /\
  (device_code <> DEVICE_OK -> device_code <> DEVICE_NO_RESOURCES ->
   hal_code = MICROBIT_HAL_DEVICE_ERROR).

(** Two cell values agree on the triggered flag (bit 0), respectively on the
    count (bits 1..15). *)
Definition same_flag (c c' : Z) : Prop := Z.testbit c' 0 = Z.testbit c 0.

Definition same_count (c c' : Z) : Prop :=
  forall i : Z, 1 <= i <= 15 -> Z.testbit c' i = Z.testbit c i.

(** * The rest of the shim

    The functions below are the other functions of the file with logic of
    their own: the pull-mode bookkeeping, the analog period setter, the
    wake-source loops, the bus initialisers, the SPI object and the random
    word.  The device operations they call are further interfaces of
    [uBit], one per subsystem. *)

Definition uint8_wrap (z : Z) : Z := z `mod` 2 ^ 8.

Arguments uint8_wrap : simpl never.

(** ** Pull modes *)

(** [PullMode::Up], [PullMode::Down], [PullMode::None]. *)
Inductive PullMode : Type := Pull_Up | Pull_Down | Pull_None.

Definition pin_pull_mode_mapping : list PullMode := [ Pull_Up; Pull_Down; Pull_None ].

(** The pin operations of [uBit.io] and of the virtual output pin of the
    audio mixer.  [setPull] answers an [int] that the shim drops. *)
Class CodalPins (uBit : Type) : Type := {
  setPull : Pin -> PullMode -> uBit -> uBit;
  setAnalogValue : Pin -> Z -> uBit -> Z * uBit;
  setAnalogPeriodUs : Pin -> Z -> uBit -> Z * uBit;
  virtualOutputPin_setAnalogValue : Z -> uBit -> uBit;
  virtualOutputPin_setAnalogPeriodUs : Z -> uBit -> uBit
}.

(** The pin number [microbithal.h] gives the audio mixer. *)
Class MixerHeader : Type := { MICROBIT_HAL_PIN_MIXER : Z }.

Definition set_pin_pull_state (hal : Hal) (a : list Z) : Hal :=
  {| pin_pull_state := a;
     touch_state := touch_state hal;
     button_state := button_state hal |}.

Definition microbit_hal_pin_set_pull `{HP : CodalPins uBit}
    (pin pull : Z) (hal : Hal) (dev : uBit) : option (Hal * uBit) :=
  p ← array_get pin_obj pin;
  m ← array_get pin_pull_mode_mapping pull;
  let dev := setPull p m dev in
  a ← array_set (pin_pull_state hal) pin (uint8_wrap pull);
  Some (set_pin_pull_state hal a, dev).

Definition microbit_hal_pin_get_pull (pin : Z) (hal : Hal) : option Z :=
  array_get (pin_pull_state hal) pin.

(** ** Analog output *)

Definition microbit_hal_pin_set_analog_period_us
    `{HC : Codal uBit} `{HP : CodalPins uBit} `{HE : ErrorNo} `{HM : MixerHeader}
    (pin period : Z) (dev : uBit) : option (Z * uBit) :=
  if bool_decide (pin = MICROBIT_HAL_PIN_MIXER)
  then Some (0, virtualOutputPin_setAnalogPeriodUs period dev)
  else
    p ← array_get pin_obj pin;
    let '(cur, dev) := getAnalogPeriodUs p dev in
    let set_period (dev : uBit) :=
      let '(r, dev) := setAnalogPeriodUs p period dev in
      if bool_decide (r = DEVICE_OK) then Some (0, dev) else Some (-1, dev) in
    if bool_decide (int_wrap cur = DEVICE_NOT_SUPPORTED)
    then
      let '(r, dev) := setAnalogValue p 0 dev in
      if bool_decide (r <> DEVICE_OK) then Some (-1, dev) else set_period dev
    else set_period dev.

(** ** Wake sources *)

Class CodalPower (uBit : Type) : Type := {
  pin_wakeOnActive : Pin -> bool -> uBit -> uBit;
  button_wakeOnActive : Button -> bool -> uBit -> uBit
}.

Definition microbit_hal_power_wake_on_button `{HW : CodalPower uBit}
    (button : Z) (wake_on_active : bool) (dev : uBit) : option uBit :=
  b ← array_get button_obj button;
  Some (button_wakeOnActive b wake_on_active dev).

Definition microbit_hal_power_wake_on_pin `{HW : CodalPower uBit}
    (pin : Z) (wake_on_active : bool) (dev : uBit) : option uBit :=
  p ← array_get pin_obj pin;
  Some (pin_wakeOnActive p wake_on_active dev).

(** [for (size_t i = first; i < first + n; ++i) body(i);] *)
Fixpoint for_each_index {uBit : Type} (body : Z -> uBit -> option uBit)
    (i : Z) (n : nat) (dev : uBit) : option uBit :=
  match n with
  | O => Some dev
  | S k => dev ← body i dev; for_each_index body (i + 1) k dev
  end.

Definition microbit_hal_power_clear_wake_sources `{HW : CodalPower uBit} (dev : uBit)
    : option uBit :=
  dev ← for_each_index (fun i => microbit_hal_power_wake_on_pin i false)
          0 (length pin_obj) dev;
  for_each_index (fun i => microbit_hal_power_wake_on_button i false)
    0 (length button_obj) dev.

(** ** Buses *)

(** [uBit.i2c] and [uBit.serial]; [i2c_redirect] takes SDA then SCL,
    [serial_redirect] takes TX then RX. *)
Class CodalBus (uBit : Type) : Type := {
  i2c_redirect : Pin -> Pin -> uBit -> Z * uBit;
  i2c_setFrequency : Z -> uBit -> Z * uBit;
  serial_redirect : Pin -> Pin -> uBit -> Z * uBit;
  serial_setBaud : Z -> uBit -> Z * uBit
}.

Definition microbit_hal_i2c_init `{HB : CodalBus uBit} `{HE : ErrorNo}
    (scl sda freq : Z) (dev : uBit) : option (Z * uBit) :=
  psda ← array_get pin_obj sda;
  pscl ← array_get pin_obj scl;
  let '(ret, dev) := i2c_redirect psda pscl dev in
  if bool_decide (ret <> DEVICE_OK) then Some (ret, dev)
  else
    let '(ret, dev) := i2c_setFrequency freq dev in
    if bool_decide (ret <> DEVICE_OK) then Some (ret, dev)
    else Some (0, dev).

Definition microbit_hal_uart_init `{HB : CodalBus uBit} `{HE : ErrorNo}
    (tx rx baudrate bits parity stop : Z) (dev : uBit) : option (Z * uBit) :=
  ptx ← array_get pin_obj tx;
  prx ← array_get pin_obj rx;
  let '(ret, dev) := serial_redirect ptx prx dev in
  if bool_decide (ret <> DEVICE_OK) then Some (ret, dev)
  else
    let '(ret, dev) := serial_setBaud baudrate dev in
    if bool_decide (ret <> DEVICE_OK) then Some (ret, dev)
    else Some (0, dev).

(** The SPI object.  [Spi] is what the static pointer [spi] points to once
    it is not null; [spi_new] is [new NRF52SPI(mosi, miso, sclk,
    NRF_SPIM2)].  [spi_transfer] takes the transmit buffer and its size, the
    receive buffer ([None] for a null pointer) and its size, and answers
    the code and the receive buffer after the transfer. *)
Class CodalSpi (uBit Spi : Type) : Type := {
  spi_new : Pin -> Pin -> Pin -> uBit -> Spi * uBit;
  spi_redirect : Spi -> Pin -> Pin -> Pin -> uBit -> Z * uBit;
  spi_setFrequency : Spi -> Z -> uBit -> Z * uBit;
  spi_setMode : Spi -> Z -> Z -> uBit -> Z * uBit;
  spi_transfer :
    Spi -> list Z -> Z -> option (list Z) -> Z -> uBit -> Z * option (list Z) * uBit
}.

(** The result of [microbit_hal_spi_init]: the returned [int], the static
    pointer [spi] and the device after the call. *)
Definition microbit_hal_spi_init `{HS : CodalSpi uBit Spi} `{HE : ErrorNo}
    (sclk mosi miso frequency bits mode : Z) (spi : option Spi) (dev : uBit)
    : option (Z * option Spi * uBit) :=
  pmosi ← array_get pin_obj mosi;
  pmiso ← array_get pin_obj miso;
  psclk ← array_get pin_obj sclk;
  let configure (s : Spi) (dev : uBit) :=
    let '(ret, dev) := spi_setFrequency s frequency dev in
    if bool_decide (ret <> DEVICE_OK) then Some (ret, Some s, dev)
    else
      let '(ret, dev) := spi_setMode s mode bits dev in
      if bool_decide (ret <> DEVICE_OK) then Some (ret, Some s, dev)
      else Some (0, Some s, dev) in
  match spi with
  | None =>
      let '(s, dev) := spi_new pmosi pmiso psclk dev in
      configure s dev
  | Some s =>
      let '(ret, dev) := spi_redirect s pmosi pmiso psclk dev in
      if bool_decide (ret <> DEVICE_OK) then Some (ret, Some s, dev)
      else configure s dev
  end.

(** [spi->transfer(...)] through a null [spi] is undefined behaviour. *)
Definition microbit_hal_spi_transfer `{HS : CodalSpi uBit Spi}
    (len : Z) (src : list Z) (dest : option (list Z)) (spi : option Spi) (dev : uBit)
    : option (Z * option (list Z) * uBit) :=
  s ← spi;
  match dest with
  | None => Some (spi_transfer s src len None 0 dev)
  | Some buf => Some (spi_transfer s src len (Some buf) len dev)
  end.

(** ** The random word *)

Class CodalRandom (uBit : Type) : Type := {
  random : Z -> uBit -> Z * uBit
}.

(** [hi << 16 | lo] on [int]s, returned as [uint32_t]. *)
Definition random_word_of (hi lo : Z) : Z :=
  uint32_wrap (Z.lor (int_wrap (Z.shiftl hi 16)) lo).

(** The language leaves open which operand of [|] is evaluated first;
    [left_first] says whether the draw that is shifted is the first one. *)
Definition rng_generate_random_word `{HR : CodalRandom uBit}
    (left_first : bool) (dev : uBit) : Z * uBit :=
  if left_first then
    let '(hi, dev) := random 65536 dev in
    let '(lo, dev) := random 65536 dev in
    (random_word_of hi lo, dev)
  else
    let '(lo, dev) := random 65536 dev in
    let '(hi, dev) := random 65536 dev in
    (random_word_of hi lo, dev).

(** ** Runs of polls *)

(** [n] polls in a row that ask for the flag only. *)
Fixpoint touch_flag_polls `{HC : Codal uBit} `{HH : HalHeader}
    (pin : Z) (n : nat) (hal : Hal) (dev : uBit) : option (Hal * uBit) :=
  match n with
  | O => Some (hal, dev)
  | S k =>
      res ← microbit_hal_pin_touch_state pin (Some 0) None hal dev;
      touch_flag_polls pin k (hal_after res) (dev_after res)
  end.

Fixpoint button_flag_polls `{HC : Codal uBit}
    (button : Z) (n : nat) (hal : Hal) (dev : uBit) : option (Hal * uBit) :=
  match n with
  | O => Some (hal, dev)
  | S k =>
      res ← microbit_hal_button_state button (Some 0) None hal dev;
      button_flag_polls button k (hal_after res) (dev_after res)
  end.

(** ** More scripted devices *)

(** A device that answers every call with the next code of a list (0 once
    the list is used up). *)
Definition answer (d : list Z) : Z * list Z := (hd 0 d, tl d).

#[export] Instance answers_bus : CodalBus (list Z) := {
  i2c_redirect := fun _ _ => answer;
  i2c_setFrequency := fun _ => answer;
  serial_redirect := fun _ _ => answer;
  serial_setBaud := fun _ => answer
}.

(** The SPI object of the answering device is a token; a transfer leaves
    the receive buffer as it is. *)
#[export] Instance answers_spi : CodalSpi (list Z) unit := {
  spi_new := fun _ _ _ d => (tt, d);
  spi_redirect := fun _ _ _ _ => answer;
  spi_setFrequency := fun _ _ => answer;
  spi_setMode := fun _ _ _ => answer;
  spi_transfer := fun _ _ _ rx _ d => ((answer d).1, rx, (answer d).2)
}.

#[export] Instance answers_random : CodalRandom (list Z) := {
  random := fun _ => answer
}.

(** The scripted device of the claims with pin operations: the analog
    operations answer [code], and a period that is set is kept. *)
Definition script_set_period (p : Z) (d : Script) : Script :=
  {| edges := edges d; active := active d; period := p; code := code d;
     pixels := pixels d; angle := angle d |}.

#[export] Instance script_pins : CodalPins Script := {
  setPull := fun _ _ d => d;
  setAnalogValue := fun _ _ d => (code d, d);
  setAnalogPeriodUs := fun _ p d => (code d, script_set_period p d);
  virtualOutputPin_setAnalogValue := fun _ d => d;
  virtualOutputPin_setAnalogPeriodUs := fun _ d => d
}.

(** An image that answers the same [int] for every pixel. *)
Definition flat_image (v : Z) : Script :=
  {| edges := []; active := 0; period := 0; code := 0;
     pixels := fun _ _ => v; angle := MATRIX_DISPLAY_ROTATION_0 |}.

(** The scripted device behind a 5 by 5 image that refuses a coordinate
    outside it: a write there changes nothing and a read answers -1001. *)
Record Matrix : Type := { behind : Script }.

Definition on_matrix (x y : Z) : bool := bool_decide (0 <= x < 5 /\ 0 <= y < 5).

Definition matrix_lift (r : Z * Script) : Z * Matrix := (r.1, {| behind := r.2 |}).

#[export] Instance matrix_codal : Codal Matrix := {
  wasTouched := fun p d => matrix_lift (wasTouched p (behind d));
  isTouched := fun p d => matrix_lift (isTouched p (behind d));
  getAnalogPeriodUs := fun p d => matrix_lift (getAnalogPeriodUs p (behind d));
  wasPressed := fun b d => matrix_lift (wasPressed b (behind d));
  isPressed := fun b d => matrix_lift (isPressed b (behind d));
  getPixelValue := fun x y d =>
    if on_matrix x y then getPixelValue x y (behind d) else -1001;
  setPixelValue := fun x y v d =>
    if on_matrix x y then {| behind := setPixelValue x y v (behind d) |} else d;
  rotateTo := fun a d => {| behind := rotateTo a (behind d) |};
  beginRow := fun d => matrix_lift (beginRow (behind d));
  endRow := fun d => matrix_lift (endRow (behind d));
  logData := fun k v d => matrix_lift (logData k v (behind d))
}.

(** A mixer pin number outside [pin_obj], for the runs. *)
Definition run_mixer : MixerHeader := {| MICROBIT_HAL_PIN_MIXER := 41 |}.

(** A device that remembers which wake sources are armed. *)
Record Wake : Type := {
  armed_pins : list Pin;
  armed_buttons : list Button
}.

#[export] Instance Pin_eq_dec : EqDecision Pin.
Proof. solve_decision. Defined.

#[export] Instance Button_eq_dec : EqDecision Button.
Proof. solve_decision. Defined.

Definition wake_update {A : Type} `{EqDecision A} (x : A) (on : bool) (l : list A)
    : list A :=
  if on then x :: l else filter (fun y => y <> x) l.

#[export] Instance wake_power : CodalPower Wake := {
  pin_wakeOnActive := fun p on d =>
    {| armed_pins := wake_update p on (armed_pins d);
       armed_buttons := armed_buttons d |};
  button_wakeOnActive := fun b on d =>
    {| armed_pins := armed_pins d;
       armed_buttons := wake_update b on (armed_buttons d) |}
}.

(** Whether a wake source is armed on the remembering device. *)
Definition wake_pin_armed (p : Pin) (d : Wake) : bool := bool_decide (p ∈ armed_pins d).

Definition wake_button_armed (b : Button) (d : Wake) : bool :=
  bool_decide (b ∈ armed_buttons d).

(** * Properties *)

(** ** Bit operations as arithmetic *)

Lemma land_1_mod (x : Z) : Z.land x 1 = x `mod` 2.
Proof. change 1 with (Z.ones 1). rewrite Z.land_ones by lia. reflexivity. Qed.

Lemma shiftr_1_div (x : Z) : Z.shiftr x 1 = x `div` 2.
Proof. rewrite Z.shiftr_div_pow2 by lia. reflexivity. Qed.

Lemma shiftl_1_double (x : Z) : Z.shiftl x 1 = 2 * x.
Proof. rewrite Z.shiftl_mul_pow2 by lia. lia. Qed.

Lemma land_lnot_1 (x : Z) : Z.land x (Z.lnot 1) = 2 * (x `div` 2).
Proof.
  change (Z.lnot 1) with (Z.lnot (Z.ones 1)).
  rewrite <- Z.ldiff_land, Z.ldiff_ones_r by lia.
  rewrite shiftl_1_double, shiftr_1_div. reflexivity.
Qed.

Lemma testbit_1_succ (m : Z) : 0 <= m -> Z.testbit 1 (Z.succ m) = false.
Proof.
  intros Hm. change 1 with (2 * 0 + 1).
  rewrite Z.testbit_odd_succ by exact Hm. apply Z.testbit_0_l.
Qed.

Lemma lor_1_odd (x : Z) : Z.lor x 1 = 2 * (x `div` 2) + 1.
Proof.
  apply Z.bits_inj'. intros n Hn.
  rewrite Z.lor_spec.
  destruct (Z.eq_dec n 0) as [-> | Hne].
  - rewrite Z.testbit_odd_0. apply orb_true_r.
  - assert (Hm : 0 <= n - 1) by lia.
    replace n with (Z.succ (n - 1)) by lia.
    generalize dependent (n - 1). clear n Hn Hne. intros m Hm.
    rewrite testbit_1_succ, orb_false_r by exact Hm.
    rewrite Z.testbit_odd_succ by exact Hm.
    symmetry. apply Z.div2_bits. exact Hm.
Qed.

(** Unfolds the conversions to their moduli and leaves linear arithmetic
    over quotients and remainders. *)
Ltac unwrap :=
  unfold uint16_wrap, uint32_wrap, int_wrap in *;
  change (2 ^ 32) with 4294967296 in *;
  change (2 ^ 31) with 2147483648 in *;
  change (2 ^ 16) with 65536 in *.

Ltac div_mod_lia := Z.div_mod_to_equations; lia.

Lemma mod_2_32_mod_2_16 (a : Z) : (a `mod` 4294967296) `mod` 65536 = a `mod` 65536.
Proof. apply Z.mod_mod_divide. exists 65536. lia. Qed.

Lemma int_wrap_int (z : Z) : - 2 ^ 31 <= z < 2 ^ 31 -> int_wrap z = z.
Proof. intros Hz. unwrap. div_mod_lia. Qed.

Lemma uint16_int_wrap (z : Z) : uint16_wrap (int_wrap z) = uint16_wrap z.
Proof.
  unwrap. rewrite Zminus_mod, mod_2_32_mod_2_16, <- Zminus_mod.
  f_equal. lia.
Qed.

Lemma uint16_int_add (a b : Z) :
  uint16_wrap (int_wrap (a + int_wrap b)) = uint16_wrap (a + b).
Proof.
  rewrite uint16_int_wrap. unfold uint16_wrap.
  rewrite Zplus_mod, (Zplus_mod a b).
  fold (uint16_wrap (int_wrap b)). rewrite uint16_int_wrap. reflexivity.
Qed.

Lemma odd_mod_2_16 (x : Z) :
  (2 * (x `div` 2) + 1) `mod` 65536 = 2 * ((x `mod` 65536) `div` 2) + 1.
Proof. div_mod_lia. Qed.

(** The absorbing statement, as arithmetic: the sum is taken modulo [2^16]
    and its low bit is set. *)
Lemma absorb_arith (state t : Z) :
  uint16_wrap (Z.lor (int_wrap (state + int_wrap (Z.shiftl t 1))) 1)
  = 2 * (((state + 2 * t) `mod` 65536) `div` 2) + 1.
Proof.
  rewrite lor_1_odd, shiftl_1_double.
  unfold uint16_wrap at 1. change (2 ^ 16) with 65536.
  rewrite odd_mod_2_16.
  change (?x `mod` 65536) with (uint16_wrap x).
  rewrite uint16_int_add. reflexivity.
Qed.

Lemma cell_absorb_none (state : Z) : cell_absorb state 0 = state.
Proof. reflexivity. Qed.

Lemma cell_absorb_some (state t : Z) :
  t <> 0 -> cell_absorb state t = 2 * (((state + 2 * t) `mod` 65536) `div` 2) + 1.
Proof.
  intros Ht. unfold cell_absorb. rewrite bool_decide_eq_true_2 by exact Ht.
  apply absorb_arith.
Qed.

(** ** Arrays *)

Lemma array_get_bounds {A : Type} (a : list A) (i : Z) (x : A) :
  array_get a i = Some x -> 0 <= i < Z.of_nat (length a).
Proof.
  unfold array_get. case_bool_decide as Hi; [| discriminate].
  intros Hx. apply lookup_lt_Some in Hx. lia.
Qed.

Lemma array_set_get {A : Type} (a : list A) (i : Z) (x v : A) :
  array_get a i = Some x -> array_set a i v = Some (<[Z.to_nat i := v]> a).
Proof.
  intros Hx. apply array_get_bounds in Hx.
  unfold array_set. rewrite bool_decide_eq_true_2 by exact Hx. reflexivity.
Qed.

Lemma array_get_insert {A : Type} (a : list A) (i : Z) (x v : A) :
  array_get a i = Some x -> array_get (<[Z.to_nat i := v]> a) i = Some v.
Proof.
  intros Hx. apply array_get_bounds in Hx.
  unfold array_get. rewrite bool_decide_eq_true_2 by lia.
  apply list_lookup_insert_eq. lia.
Qed.

(** ** The two poll functions run [cell_poll] on their cell *)

Section Polls.
Context `{HC : Codal uBit} `{HH : HalHeader}.

Lemma touch_state_poll (pin : Z) (p : Pin) (was num : option Z) (hal : Hal)
    (dev : uBit) (cell : Z) :
  array_get pin_obj pin = Some p ->
  array_get (touch_state hal) (pin_state_index_of pin) = Some cell ->
  is_Some was \/ is_Some num ->
  let out := cell_poll was num cell (wasTouched p dev).1 in
  microbit_hal_pin_touch_state pin was num hal dev =
  Some {| returned := (isTouched p (wasTouched p dev).2).1;
          was_out := out.1.1;
          num_out := out.1.2;
          hal_after :=
            set_touch_state hal
              (<[Z.to_nat (pin_state_index_of pin) := out.2]> (touch_state hal));
          dev_after := touch_dev_next p dev |}.
Proof.
  intros Hp Hcell Hask out. subst out.
  unfold microbit_hal_pin_touch_state, touch_dev_next, cell_poll, cell_absorb,
    cell_take_flag, cell_take_count.
  fold (pin_state_index_of pin).
  rewrite Hp. simpl.
  destruct (wasTouched p dev) as [t d1]. simpl.
  rewrite Hcell. simpl.
  destruct (isTouched p d1) as [r d2]. simpl.
  destruct was as [w |], num as [n |]; simpl;
    try (destruct Hask as [[? Hw] | [? Hn]]; discriminate);
    rewrite (array_set_get _ _ cell) by exact Hcell; reflexivity.
Qed.

Lemma button_state_poll (button : Z) (b : Button) (was num : option Z)
    (hal : Hal) (dev : uBit) (cell : Z) :
  array_get button_obj button = Some b ->
  array_get (button_state hal) button = Some cell ->
  is_Some was \/ is_Some num ->
  let out := cell_poll was num cell (wasPressed b dev).1 in
  microbit_hal_button_state button was num hal dev =
  Some {| returned := (isPressed b (wasPressed b dev).2).1;
          was_out := out.1.1;
          num_out := out.1.2;
          hal_after :=
            set_button_state hal (<[Z.to_nat button := out.2]> (button_state hal));
          dev_after := button_dev_next b dev |}.
Proof.
  intros Hb Hcell Hask out. subst out.
  unfold microbit_hal_button_state, button_dev_next, cell_poll, cell_absorb,
    cell_take_flag, cell_take_count.
  rewrite Hb. simpl.
  destruct (wasPressed b dev) as [t d1]. simpl.
  destruct (isPressed b d1) as [r d2]. simpl.
  destruct was as [w |], num as [n |]; simpl;
    try (destruct Hask as [[? Hw] | [? Hn]]; discriminate);
    rewrite Hcell; simpl;
    rewrite (array_set_get _ _ cell) by exact Hcell; reflexivity.
Qed.

End Polls.

(** ** The packed cell *)

Lemma cell_poll_fresh (w n N : Z) :
  0 < N <= 32767 ->
  cell_poll (Some w) (Some n) 0 N = (Some 1, Some N, 0).
Proof.
  intros HN. unfold cell_poll, cell_take_flag, cell_take_count.
  rewrite cell_absorb_some by lia.
  rewrite land_1_mod, land_lnot_1, shiftr_1_div, land_1_mod.
  unwrap. repeat f_equal; div_mod_lia.
Qed.

(** A read of the flag stores an even cell, whatever else the poll did. *)
Lemma cell_poll_flag_cleared (w : Z) (num : option Z) (state t : Z) :
  Z.land (cell_poll (Some w) num state t).2 1 = 0.
Proof.
  unfold cell_poll, cell_take_flag, cell_take_count.
  destruct num as [n |]; simpl; rewrite ?land_1_mod, ?land_lnot_1;
    unwrap; div_mod_lia.
Qed.

(** With no new edge, the flag handed out is bit 0 of the stored cell. *)
Lemma cell_poll_flag_quiet (w : Z) (num : option Z) (state : Z) :
  (cell_poll (Some w) num state 0).1.1 = Some (Z.land state 1).
Proof.
  unfold cell_poll, cell_take_flag, cell_take_count.
  rewrite cell_absorb_none. destruct num; reflexivity.
Qed.

Lemma cell_absorb_bit0 (state t : Z) :
  Z.testbit (cell_absorb state t) 0 = Z.testbit state 0 || bool_decide (t <> 0).
Proof.
  unfold cell_absorb. case_bool_decide as Ht.
  - rewrite absorb_arith, Z.testbit_odd_0, orb_true_r. reflexivity.
  - rewrite orb_false_r. reflexivity.
Qed.

Lemma testbit_1_high (i : Z) : 1 <= i -> Z.testbit 1 i = false.
Proof.
  intros Hi. replace i with (Z.succ (i - 1)) by lia.
  apply testbit_1_succ. lia.
Qed.

Lemma uint16_testbit_low (x i : Z) :
  0 <= i < 16 -> Z.testbit (uint16_wrap x) i = Z.testbit x i.
Proof. intros Hi. unfold uint16_wrap. apply Z.mod_pow2_bits_low. lia. Qed.

(** A read of the count alone keeps bit 0 of the absorbed cell. *)
Lemma cell_poll_count_only_bit0 (n state t : Z) :
  Z.testbit (cell_poll None (Some n) state t).2 0
  = Z.testbit (cell_absorb state t) 0.
Proof.
  unfold cell_poll, cell_take_flag, cell_take_count.
  cbv beta iota zeta. cbn [fst snd].
  rewrite uint16_testbit_low by lia.
  rewrite Z.land_spec. change (Z.testbit 1 0) with true.
  apply andb_true_r.
Qed.

(** A read of the flag alone keeps bits 1..15 of the absorbed cell. *)
Lemma cell_poll_flag_only_bits (w state t i : Z) :
  1 <= i <= 15 ->
  Z.testbit (cell_poll (Some w) None state t).2 i
  = Z.testbit (cell_absorb state t) i.
Proof.
  intros Hi.
  unfold cell_poll, cell_take_flag, cell_take_count.
  cbv beta iota zeta. cbn [fst snd].
  rewrite uint16_testbit_low by lia.
  rewrite Z.land_spec, Z.lnot_spec by lia.
  rewrite testbit_1_high by lia. apply andb_true_r.
Qed.

(** Flag-only polls add their batches up in the count bits, as long as the
    total fits 15 bits. *)
Lemma cell_absorb_all_sum (batches : list Z) :
  forall k : Z,
  0 <= k ->
  Forall (fun t => 0 <= t) batches ->
  k + sum_batches batches <= 32767 ->
  cell_absorb_all (2 * k) batches = 2 * (k + sum_batches batches).
Proof.
  induction batches as [| t rest IH]; intros k Hk Hpos Hsum;
    unfold sum_batches in *; cbn [cell_absorb_all foldr] in *.
  - f_equal. lia.
  - inversion Hpos as [| t' rest' Ht Hrest]; subst t' rest'.
    assert (Hrest_nonneg : 0 <= foldr Z.add 0 rest).
    { clear -Hrest. induction Hrest; cbn [foldr]; lia. }
    assert (Hstep : (cell_poll (Some 0) None (2 * k) t).2 = 2 * (k + t)).
    { unfold cell_poll, cell_take_flag, cell_take_count. simpl.
      destruct (Z.eq_dec t 0) as [-> | Hne].
      - rewrite cell_absorb_none, land_lnot_1. unwrap. div_mod_lia.
      - rewrite cell_absorb_some, land_lnot_1 by exact Hne. unwrap. div_mod_lia. }
    rewrite Hstep, IH by (try assumption; lia).
    lia.
Qed.

(** A read of the count on an even cell within range, with no new edge. *)
Lemma cell_poll_count_quiet (was : option Z) (n k : Z) :
  0 <= k <= 32767 ->
  (cell_poll was (Some n) (2 * k) 0).1.2 = Some k.
Proof.
  intros Hk. unfold cell_poll, cell_take_flag, cell_take_count.
  rewrite cell_absorb_none.
  destruct was as [w |]; simpl; f_equal;
    rewrite ?land_lnot_1, shiftr_1_div; unwrap; div_mod_lia.
Qed.

(** ** Polls on the stored cells *)

Section PollClaims.
Context `{HC : Codal uBit} `{HH : HalHeader}.

(** A poll that asked for an output and returned found its cell in range. *)
Lemma touch_state_defined (pin : Z) (p : Pin) (was num : option Z) (hal : Hal)
    (dev : uBit) (res : Polled uBit) :
  array_get pin_obj pin = Some p ->
  is_Some was \/ is_Some num ->
  microbit_hal_pin_touch_state pin was num hal dev = Some res ->
  exists cell, array_get (touch_state hal) (pin_state_index_of pin) = Some cell.
Proof.
  intros Hp Hask Hres.
  destruct (array_get (touch_state hal) (pin_state_index_of pin)) as [cell |] eqn:Hcell;
    [eauto |].
  exfalso. revert Hres. unfold microbit_hal_pin_touch_state.
  fold (pin_state_index_of pin). rewrite Hp. simpl.
  destruct (wasTouched p dev) as [t d1]. rewrite Hcell.
  destruct was, num; simpl; try discriminate.
  destruct Hask as [[? Hw] | [? Hn]]; discriminate.
Qed.

Lemma button_state_defined (button : Z) (b : Button) (was num : option Z)
    (hal : Hal) (dev : uBit) (res : Polled uBit) :
  array_get button_obj button = Some b ->
  is_Some was \/ is_Some num ->
  microbit_hal_button_state button was num hal dev = Some res ->
  exists cell, array_get (button_state hal) button = Some cell.
Proof.
  intros Hb Hask Hres.
  destruct (array_get (button_state hal) button) as [cell |] eqn:Hcell; [eauto |].
  exfalso. revert Hres. unfold microbit_hal_button_state.
  rewrite Hb, Hcell. simpl.
  destruct was, num; simpl; try discriminate.
  destruct Hask as [[? Hw] | [? Hn]]; discriminate.
Qed.

(** C1 (as amended): on a cell that holds 0, a poll with both outputs
    requested at which the device layer reports N edges, 0 < N <= 32767,
    writes was_active = 1 and activation_count = N and stores 0 in the
    cell; this holds for the touch pins and for the buttons.  The bound is
    what the 15 count bits of the cell hold. *)
Theorem poll_both_reports_edges (hal : Hal) (dev : uBit) (w n N : Z) :
  0 < N <= 32767 ->
  (forall (pin : Z) (p : Pin),
     array_get pin_obj pin = Some p ->
     array_get (touch_state hal) (pin_state_index_of pin) = Some 0 ->
     (wasTouched p dev).1 = N ->
     exists res,
       microbit_hal_pin_touch_state pin (Some w) (Some n) hal dev = Some res /\
       was_out res = Some 1 /\
       num_out res = Some N /\
       array_get (touch_state (hal_after res)) (pin_state_index_of pin) = Some 0) /\
  (forall (button : Z) (b : Button),
     array_get button_obj button = Some b ->
     array_get (button_state hal) button = Some 0 ->
     (wasPressed b dev).1 = N ->
     exists res,
       microbit_hal_button_state button (Some w) (Some n) hal dev = Some res /\
       was_out res = Some 1 /\
       num_out res = Some N /\
       array_get (button_state (hal_after res)) button = Some 0).
Proof.
  intros HN. split.
  - intros pin p Hp Hcell Ht.
    eexists. split.
    + apply (touch_state_poll pin p (Some w) (Some n) hal dev 0 Hp Hcell).
      left. eauto.
    + rewrite Ht, cell_poll_fresh by exact HN. cbn.
      repeat split. eapply array_get_insert. exact Hcell.
  - intros button b Hb Hcell Ht.
    eexists. split.
    + apply (button_state_poll button b (Some w) (Some n) hal dev 0 Hb Hcell).
      left. eauto.
    + rewrite Ht, cell_poll_fresh by exact HN. cbn.
      repeat split. eapply array_get_insert. exact Hcell.
Qed.

Lemma same_flag_absorb_quiet (cell c' : Z) :
  same_flag (cell_absorb cell 0) c' -> same_flag cell c'.
Proof. rewrite cell_absorb_none. exact id. Qed.

Lemma same_flag_never_cleared (cell t c' : Z) :
  same_flag (cell_absorb cell t) c' -> Z.testbit cell 0 = true -> Z.testbit c' 0 = true.
Proof.
  unfold same_flag. intros -> Hset. rewrite cell_absorb_bit0, Hset. reflexivity.
Qed.

(** C2 (as amended): a poll that asks for the count only stores a cell whose
    bit 0 is bit 0 of the cell after the poll absorbed the reported edges;
    a poll that asks for the flag only stores a cell whose bits 1..15 are
    those of the cell after absorption.  So with no edge reported the named
    bits of the stored cell are unchanged, and a count-only poll never
    clears a flag that was set.  Touch pins and buttons alike. *)
Theorem poll_single_output_frame (hal : Hal) (dev : uBit) (v cell : Z) :
  (forall (pin : Z) (p : Pin),
     array_get pin_obj pin = Some p ->
     array_get (touch_state hal) (pin_state_index_of pin) = Some cell ->
     let t := (wasTouched p dev).1 in
     (exists res cell',
        microbit_hal_pin_touch_state pin None (Some v) hal dev = Some res /\
        array_get (touch_state (hal_after res)) (pin_state_index_of pin) = Some cell' /\
        same_flag (cell_absorb cell t) cell' /\
        (t = 0 -> same_flag cell cell') /\
        (Z.testbit cell 0 = true -> Z.testbit cell' 0 = true)) /\
     (exists res cell',
        microbit_hal_pin_touch_state pin (Some v) None hal dev = Some res /\
        array_get (touch_state (hal_after res)) (pin_state_index_of pin) = Some cell' /\
        same_count (cell_absorb cell t) cell' /\
        (t = 0 -> same_count cell cell'))) /\
  (forall (button : Z) (b : Button),
     array_get button_obj button = Some b ->
     array_get (button_state hal) button = Some cell ->
     let t := (wasPressed b dev).1 in
     (exists res cell',
        microbit_hal_button_state button None (Some v) hal dev = Some res /\
        array_get (button_state (hal_after res)) button = Some cell' /\
        same_flag (cell_absorb cell t) cell' /\
        (t = 0 -> same_flag cell cell') /\
        (Z.testbit cell 0 = true -> Z.testbit cell' 0 = true)) /\
     (exists res cell',
        microbit_hal_button_state button (Some v) None hal dev = Some res /\
        array_get (button_state (hal_after res)) button = Some cell' /\
        same_count (cell_absorb cell t) cell' /\
        (t = 0 -> same_count cell cell'))).
Proof.
  split.
  - intros pin p Hp Hcell t. split.
    + do 2 eexists. split; [| split].
      * apply (touch_state_poll pin p None (Some v) hal dev cell Hp Hcell).
        right. eauto.
      * cbn [hal_after set_touch_state touch_state].
        eapply array_get_insert. exact Hcell.
      * assert (Hflag : same_flag (cell_absorb cell t)
                          (cell_poll None (Some v) cell t).2)
          by apply cell_poll_count_only_bit0.
        split; [exact Hflag | split].
        -- intros Ht. apply same_flag_absorb_quiet. rewrite <- Ht. exact Hflag.
        -- eapply same_flag_never_cleared. exact Hflag.
    + do 2 eexists. split; [| split].
      * apply (touch_state_poll pin p (Some v) None hal dev cell Hp Hcell).
        left. eauto.
      * cbn [hal_after set_touch_state touch_state].
        eapply array_get_insert. exact Hcell.
      * split.
        -- intros i Hi. apply cell_poll_flag_only_bits. exact Hi.
        -- intros Ht i Hi. fold t. rewrite Ht.
           rewrite cell_poll_flag_only_bits by exact Hi. reflexivity.
  - intros button b Hb Hcell t. split.
    + do 2 eexists. split; [| split].
      * apply (button_state_poll button b None (Some v) hal dev cell Hb Hcell).
        right. eauto.
      * cbn [hal_after set_button_state button_state].
        eapply array_get_insert. exact Hcell.
      * assert (Hflag : same_flag (cell_absorb cell t)
                          (cell_poll None (Some v) cell t).2)
          by apply cell_poll_count_only_bit0.
        split; [exact Hflag | split].
        -- intros Ht. apply same_flag_absorb_quiet. rewrite <- Ht. exact Hflag.
        -- eapply same_flag_never_cleared. exact Hflag.
    + do 2 eexists. split; [| split].
      * apply (button_state_poll button b (Some v) None hal dev cell Hb Hcell).
        left. eauto.
      * cbn [hal_after set_button_state button_state].
        eapply array_get_insert. exact Hcell.
      * split.
        -- intros i Hi. apply cell_poll_flag_only_bits. exact Hi.
        -- intros Ht i Hi. fold t. rewrite Ht.
           rewrite cell_poll_flag_only_bits by exact Hi. reflexivity.
Qed.

(** C3: when a poll that asks for was_active wrote 1 and the device layer
    reports no new edge at the next poll of the same input, the next poll
    that asks for was_active returns and writes 0; whether either poll also
    asks for the count makes no difference.  Touch pins and buttons alike. *)
Theorem was_active_self_clearing (hal : Hal) (dev : uBit) (w1 w2 : Z)
    (num1 num2 : option Z) (res1 : Polled uBit) :
  (forall (pin : Z) (p : Pin),
     array_get pin_obj pin = Some p ->
     microbit_hal_pin_touch_state pin (Some w1) num1 hal dev = Some res1 ->
     was_out res1 = Some 1 ->
     (wasTouched p (dev_after res1)).1 = 0 ->
     exists res2,
       microbit_hal_pin_touch_state pin (Some w2) num2 (hal_after res1) (dev_after res1)
         = Some res2 /\
       was_out res2 = Some 0) /\
  (forall (button : Z) (b : Button),
     array_get button_obj button = Some b ->
     microbit_hal_button_state button (Some w1) num1 hal dev = Some res1 ->
     was_out res1 = Some 1 ->
     (wasPressed b (dev_after res1)).1 = 0 ->
     exists res2,
       microbit_hal_button_state button (Some w2) num2 (hal_after res1) (dev_after res1)
         = Some res2 /\
       was_out res2 = Some 0).
Proof.
  split.
  - intros pin p Hp Hres1 _ Hquiet.
    destruct (touch_state_defined pin p (Some w1) num1 hal dev res1 Hp) as [cell Hcell];
      [left; eauto | exact Hres1 |].
    rewrite (touch_state_poll pin p (Some w1) num1 hal dev cell Hp Hcell) in Hres1
      by (left; eauto).
    injection Hres1 as <-. cbn [hal_after dev_after] in *.
    eexists. split.
    + apply (touch_state_poll pin p (Some w2) num2); [exact Hp | | left; eauto].
      cbn [set_touch_state touch_state]. eapply array_get_insert. exact Hcell.
    + cbn [was_out]. rewrite Hquiet, cell_poll_flag_quiet, cell_poll_flag_cleared.
      reflexivity.
  - intros button b Hb Hres1 _ Hquiet.
    destruct (button_state_defined button b (Some w1) num1 hal dev res1 Hb) as [cell Hcell];
      [left; eauto | exact Hres1 |].
    rewrite (button_state_poll button b (Some w1) num1 hal dev cell Hb Hcell) in Hres1
      by (left; eauto).
    injection Hres1 as <-. cbn [hal_after dev_after] in *.
    eexists. split.
    + apply (button_state_poll button b (Some w2) num2); [exact Hb | | left; eauto].
      cbn [set_button_state button_state]. eapply array_get_insert. exact Hcell.
    + cbn [was_out]. rewrite Hquiet, cell_poll_flag_quiet, cell_poll_flag_cleared.
      reflexivity.
Qed.

(** Two flag-only polls that absorb A and B leave the cell at 2 * (A + B). *)
Lemma two_batches_cell (A B : Z) :
  0 < A -> 0 < B -> A + B <= 32767 ->
  (cell_poll (Some 0) None (cell_poll (Some 0) None 0 A).2 B).2 = 2 * (A + B).
Proof.
  intros HA HB Hsum.
  change 0 with (2 * 0) at 3.
  change (cell_poll (Some 0) None (cell_poll (Some 0) None (2 * 0) A).2 B).2
    with (cell_absorb_all (2 * 0) [A; B]).
  rewrite cell_absorb_all_sum; unfold sum_batches; cbn [foldr]; try lia.
  repeat constructor; lia.
Qed.

(** The value a flag-only poll stores does not depend on what the pointer
    pointed to. *)
Lemma cell_poll_flag_only_any (w w' state t : Z) :
  cell_poll (Some w) None state t = cell_poll (Some w') None state t.
Proof. reflexivity. Qed.

(** C4 (as amended): from a cell that holds 0, two polls that ask for the
    flag only and absorb batches of A > 0 and B > 0 edges, A + B <= 32767,
    are followed by a poll that asks for the count, at which no further
    edge is reported, and that poll writes activation_count = A + B.  Touch
    pins and buttons alike. *)
Theorem count_accumulates_over_polls (hal : Hal) (dev : uBit) (A B w1 w2 n : Z)
    (was3 : option Z) :
  0 < A -> 0 < B -> A + B <= 32767 ->
  (forall (pin : Z) (p : Pin),
     array_get pin_obj pin = Some p ->
     array_get (touch_state hal) (pin_state_index_of pin) = Some 0 ->
     (wasTouched p dev).1 = A ->
     (wasTouched p (touch_dev_next p dev)).1 = B ->
     (wasTouched p (touch_dev_next p (touch_dev_next p dev))).1 = 0 ->
     exists res1 res2 res3,
       microbit_hal_pin_touch_state pin (Some w1) None hal dev = Some res1 /\
       microbit_hal_pin_touch_state pin (Some w2) None (hal_after res1) (dev_after res1)
         = Some res2 /\
       microbit_hal_pin_touch_state pin was3 (Some n) (hal_after res2) (dev_after res2)
         = Some res3 /\
       num_out res3 = Some (A + B)) /\
  (forall (button : Z) (b : Button),
     array_get button_obj button = Some b ->
     array_get (button_state hal) button = Some 0 ->
     (wasPressed b dev).1 = A ->
     (wasPressed b (button_dev_next b dev)).1 = B ->
     (wasPressed b (button_dev_next b (button_dev_next b dev))).1 = 0 ->
     exists res1 res2 res3,
       microbit_hal_button_state button (Some w1) None hal dev = Some res1 /\
       microbit_hal_button_state button (Some w2) None (hal_after res1) (dev_after res1)
         = Some res2 /\
       microbit_hal_button_state button was3 (Some n) (hal_after res2) (dev_after res2)
         = Some res3 /\
       num_out res3 = Some (A + B)).
Proof.
  intros HA HB Hsum. split.
  - intros pin p Hp Hcell H1 H2 H3.
    do 3 eexists. split; [| split; [| split]].
    + apply (touch_state_poll pin p (Some w1) None hal dev 0 Hp Hcell). left. eauto.
    + apply (touch_state_poll pin p (Some w2) None); [exact Hp | | left; eauto].
      cbn [hal_after set_touch_state touch_state].
      eapply array_get_insert. exact Hcell.
    + apply (touch_state_poll pin p was3 (Some n)); [exact Hp | | right; eauto].
      cbn [hal_after set_touch_state touch_state].
      eapply array_get_insert. eapply array_get_insert. exact Hcell.
    + cbn [num_out dev_after hal_after]. rewrite H1, H2, H3.
      rewrite (cell_poll_flag_only_any w1 0), (cell_poll_flag_only_any w2 0).
      rewrite two_batches_cell by assumption.
      apply cell_poll_count_quiet. lia.
  - intros button b Hb Hcell H1 H2 H3.
    do 3 eexists. split; [| split; [| split]].
    + apply (button_state_poll button b (Some w1) None hal dev 0 Hb Hcell). left. eauto.
    + apply (button_state_poll button b (Some w2) None); [exact Hb | | left; eauto].
      cbn [hal_after set_button_state button_state].
      eapply array_get_insert. exact Hcell.
    + apply (button_state_poll button b was3 (Some n)); [exact Hb | | right; eauto].
      cbn [hal_after set_button_state button_state].
      eapply array_get_insert. eapply array_get_insert. exact Hcell.
    + cbn [num_out dev_after hal_after]. rewrite H1, H2, H3.
      rewrite (cell_poll_flag_only_any w1 0), (cell_poll_flag_only_any w2 0).
      rewrite two_batches_cell by assumption.
      apply cell_poll_count_quiet. lia.
Qed.

(** C5: a poll with both output pointers null leaves the static storage as
    it was (every cell, so the one of the polled input too), never reads
    the edge count of the device layer (the device is the one [isTouched] /
    [isPressed] leaves behind) and returns the current state that
    [isTouched] / [isPressed] reports. *)
Theorem poll_without_outputs_bypasses_counter (hal : Hal) (dev : uBit) :
  (forall (pin : Z) (p : Pin),
     array_get pin_obj pin = Some p ->
     microbit_hal_pin_touch_state pin None None hal dev =
     Some {| returned := (isTouched p dev).1; was_out := None; num_out := None;
             hal_after := hal; dev_after := (isTouched p dev).2 |}) /\
  (forall (button : Z) (b : Button),
     array_get button_obj button = Some b ->
     microbit_hal_button_state button None None hal dev =
     Some {| returned := (isPressed b dev).1; was_out := None; num_out := None;
             hal_after := hal; dev_after := (isPressed b dev).2 |}).
Proof.
  split.
  - intros pin p Hp. unfold microbit_hal_pin_touch_state.
    rewrite Hp. simpl. destruct (isTouched p dev). reflexivity.
  - intros button b Hb. unfold microbit_hal_button_state.
    rewrite Hb. simpl. destruct (isPressed b dev). reflexivity.
Qed.

End PollClaims.

(** ** The display *)

(** [builtin_clz] against the logarithm: on a non-zero 32-bit word,
    [32 - clz] is the position of the highest set bit plus one. *)
Lemma clz_from_log2 (n : nat) (x : Z) :
  0 < x < 2 ^ Z.of_nat n -> clz_from n x = Z.of_nat n - 1 - Z.log2 x.
Proof.
  induction n as [| n IH]; intros Hx.
  - change (2 ^ Z.of_nat 0) with 1 in Hx. lia.
  - cbn [clz_from]. rewrite Nat2Z.inj_succ, Z.pow_succ_r in Hx by lia.
    destruct (Z.testbit x (Z.of_nat n)) eqn:Hbit.
    + assert (Hlow : 2 ^ Z.of_nat n <= x).
      { destruct (Z.lt_ge_cases x (2 ^ Z.of_nat n)) as [Hlt | Hge]; [| exact Hge].
        apply Z.log2_lt_pow2 in Hlt; [| lia].
        rewrite Z.bits_above_log2 in Hbit by lia. discriminate. }
      rewrite (Z.log2_unique x (Z.of_nat n)); [lia | lia |].
      rewrite <- Z.add_1_r, Z.pow_add_r by lia. change (2 ^ 1) with 2. lia.
    + assert (Hlt : x < 2 ^ Z.of_nat n).
      { destruct (Z.lt_ge_cases x (2 ^ Z.of_nat n)) as [Hlt | Hge]; [exact Hlt |].
        assert (Hlog : Z.log2 x = Z.of_nat n).
        { apply Z.log2_unique; [lia |].
          rewrite <- Z.add_1_r, Z.pow_add_r by lia. change (2 ^ 1) with 2. lia. }
        rewrite <- Hlog, Z.bit_log2 in Hbit by lia. discriminate. }
      rewrite IH by lia. lia.
Qed.

Lemma builtin_clz_log2 (x : Z) :
  0 < x < 2 ^ 32 -> builtin_clz x = Some (31 - Z.log2 x).
Proof.
  intros Hx. unfold builtin_clz. rewrite bool_decide_eq_false_2 by lia.
  rewrite clz_from_log2 by exact Hx.
  replace (Z.of_nat 32 - 1 - Z.log2 x) with (31 - Z.log2 x) by lia. reflexivity.
Qed.

Lemma builtin_clz_zero : builtin_clz 0 = None.
Proof. reflexivity. Qed.

(** Splits on the ten levels of [bright_map] and reads the entry off. *)
Ltac bright_cases Hraw :=
  match type of Hraw with
  | array_get bright_map ?level = Some ?raw =>
      let Hlevel := fresh "Hlevel" in
      let Hcases := fresh "Hcases" in
      pose proof (array_get_bounds _ _ _ Hraw) as Hlevel;
      cbn [bright_map length] in Hlevel;
      assert (Hcases : level = 0 \/ level = 1 \/ level = 2 \/ level = 3 \/
                       level = 4 \/ level = 5 \/ level = 6 \/ level = 7 \/
                       level = 8 \/ level = 9) by lia;
      repeat (destruct Hcases as [-> | Hcases]); try subst level;
      vm_compute in Hraw; injection Hraw as <-
  end.

Lemma bright_map_range (level raw : Z) :
  array_get bright_map level = Some raw -> 0 <= raw <= 255.
Proof. intros Hraw. bright_cases Hraw; lia. Qed.

(** The decoder of [microbit_hal_display_get_pixel] undoes [bright_map] on
    the levels whose entry is not 0. *)
Lemma decode_bright_map (level raw : Z) :
  array_get bright_map level = Some raw ->
  1 <= level ->
  (if bool_decide (uint32_wrap raw = 255) then Some 9
   else c ← builtin_clz (uint32_wrap raw); Some (32 - c))
  = Some level.
Proof. intros Hraw Hlevel. bright_cases Hraw; try lia; vm_compute; reflexivity. Qed.

Section Display.
Context `{HC : Codal uBit}.

(** C6: [microbit_hal_display_set_pixel] hands raw intensity 0 to the device
    for every level below 0, raw 255 for every level above 9, and for the
    levels 0 to 9 the entries 0, 1, 2, 4, 8, 16, 32, 64, 128, 255 in that
    order. *)
Theorem set_pixel_brightness_map (x y : Z) (dev : uBit) :
  (forall bright : Z, bright < 0 ->
     microbit_hal_display_set_pixel x y bright dev = Some (setPixelValue x y 0 dev)) /\
  (forall bright : Z, 9 < bright ->
     microbit_hal_display_set_pixel x y bright dev = Some (setPixelValue x y 255 dev)) /\
  Forall (fun '(level, raw) =>
            microbit_hal_display_set_pixel x y level dev = Some (setPixelValue x y raw dev))
    [ (0, 0); (1, 1); (2, 2); (3, 4); (4, 8); (5, 16); (6, 32); (7, 64);
      (8, 128); (9, 255) ].
Proof.
  split; [| split].
  - intros bright Hneg. unfold microbit_hal_display_set_pixel.
    rewrite bool_decide_eq_true_2 by exact Hneg. reflexivity.
  - intros bright Hbig. unfold microbit_hal_display_set_pixel.
    rewrite bool_decide_eq_false_2 by lia.
    rewrite bool_decide_eq_true_2 by lia. reflexivity.
  - repeat constructor.
Qed.

(** C7 (as amended): for a level L in 1..9 and a pixel at which the image
    reads back the raw intensity that was written, writing L with
    [microbit_hal_display_set_pixel] and reading the pixel with
    [microbit_hal_display_get_pixel] gives L. *)
Theorem brightness_round_trip (x y L : Z) (dev : uBit) :
  1 <= L <= 9 ->
  (forall (v : Z) (d : uBit), 0 <= v <= 255 ->
     getPixelValue x y (setPixelValue x y v d) = v) ->
  exists dev',
    microbit_hal_display_set_pixel x y L dev = Some dev' /\
    microbit_hal_display_get_pixel x y dev' = Some L.
Proof.
  intros HL Himage.
  destruct (array_get bright_map L) as [raw |] eqn:Hraw.
  - exists (setPixelValue x y raw dev). split.
    + unfold microbit_hal_display_set_pixel.
      rewrite !bool_decide_eq_false_2 by lia. rewrite Hraw. reflexivity.
    + unfold microbit_hal_display_get_pixel. cbv zeta.
      rewrite Himage.
      * apply decode_bright_map; [exact Hraw | lia].
      * eapply bright_map_range. exact Hraw.
  - exfalso. unfold array_get in Hraw.
    rewrite bool_decide_eq_true_2 in Hraw by lia.
    apply lookup_ge_None in Hraw. cbn [bright_map length] in Hraw. lia.
Qed.

(** C10: [microbit_hal_display_rotate] indexes [angle_map] with
    [rotation & 3], which lies in 0..3 and equals [rotation mod 4]: the
    lookup is inside the table for every argument, and an argument selects
    the angle its remainder modulo 4 selects. *)
Theorem rotate_index_in_range (rotation : Z) (dev : uBit) :
  0 <= Z.land rotation 3 <= 3 /\
  Z.land rotation 3 = rotation `mod` 4 /\
  (exists a : DisplayRotation,
     array_get angle_map (Z.land rotation 3) = Some a /\
     microbit_hal_display_rotate rotation dev = Some (rotateTo a dev)) /\
  microbit_hal_display_rotate rotation dev
  = microbit_hal_display_rotate (rotation `mod` 4) dev.
Proof.
  assert (Hmod : Z.land rotation 3 = rotation `mod` 4).
  { change 3 with (Z.ones 2). rewrite Z.land_ones by lia. reflexivity. }
  assert (Hrange : 0 <= Z.land rotation 3 <= 3).
  { rewrite Hmod. pose proof (Z.mod_pos_bound rotation 4). lia. }
  split; [exact Hrange | split; [exact Hmod | split]].
  - unfold microbit_hal_display_rotate.
    assert (Hcases : Z.land rotation 3 = 0 \/ Z.land rotation 3 = 1 \/
                     Z.land rotation 3 = 2 \/ Z.land rotation 3 = 3) by lia.
    destruct Hcases as [-> | [-> | [-> | ->]]]; eexists; split; reflexivity.
  - unfold microbit_hal_display_rotate.
    assert (Hidem : Z.land (rotation `mod` 4) 3 = Z.land rotation 3).
    { rewrite <- Hmod. rewrite Hmod at 1.
      change 3 with (Z.ones 2). rewrite !Z.land_ones by lia.
      apply Z.mod_mod. lia. }
    rewrite Hidem. reflexivity.
Qed.

End Display.

(** ** Return codes *)

Section Codes.
Context `{HC : Codal uBit} `{HE : ErrorNo} `{HH : HalHeader}.

(** C8 (as amended): on a pin of [pin_obj],
    [microbit_hal_pin_get_analog_period_us] returns -1 when the device layer
    reports [DEVICE_NOT_SUPPORTED] and the value the device layer reports
    (as the [int] it is assigned to), unchanged, in every other case; so
    the result is -1 exactly when the device layer reports
    [DEVICE_NOT_SUPPORTED] or reports -1 itself.  The three-way conversion
    of the log codes plays no part: the result is a function of the device
    value and [DEVICE_NOT_SUPPORTED] alone. *)
Theorem analog_period_sentinel (pin : Z) (p : Pin) (dev : uBit) :
  array_get pin_obj pin = Some p ->
  let period := int_wrap (getAnalogPeriodUs p dev).1 in
  exists r : Z,
    microbit_hal_pin_get_analog_period_us pin dev
    = Some (r, (getAnalogPeriodUs p dev).2) /\
    (period = DEVICE_NOT_SUPPORTED -> r = -1) /\
    (period <> DEVICE_NOT_SUPPORTED -> r = period) /\
    (r = -1 <-> period = DEVICE_NOT_SUPPORTED \/ period = -1) /\
    (- 2 ^ 31 <= (getAnalogPeriodUs p dev).1 < 2 ^ 31 ->
     period = (getAnalogPeriodUs p dev).1).
Proof.
  intros Hp period. subst period.
  unfold microbit_hal_pin_get_analog_period_us. rewrite Hp. simpl.
  destruct (getAnalogPeriodUs p dev) as [raw d1]. simpl.
  case_bool_decide as Hcode.
  - exists (int_wrap raw). repeat split; try tauto. apply int_wrap_int.
  - exists (-1). repeat split; try tauto. apply int_wrap_int.
Qed.

Lemma convert_return_value_collapses (result : Z) :
  DEVICE_OK <> DEVICE_NO_RESOURCES ->
  collapses result (microbit_hal_log_convert_return_value result).
Proof.
  intros Hdistinct. unfold collapses, microbit_hal_log_convert_return_value.
  repeat case_bool_decide; repeat split; intros; congruence.
Qed.

(** C9: provided [DEVICE_OK] and [DEVICE_NO_RESOURCES] are different codes,
    the three log operations hand [MICROBIT_HAL_DEVICE_OK] to the caller
    when the device layer answers [DEVICE_OK],
    [MICROBIT_HAL_DEVICE_NO_RESOURCES] when it answers
    [DEVICE_NO_RESOURCES] and [MICROBIT_HAL_DEVICE_ERROR] for any other
    code; the result is always one of these three. *)
Theorem log_codes_collapse (dev : uBit) (key value : string) :
  DEVICE_OK <> DEVICE_NO_RESOURCES ->
  collapses (beginRow dev).1 (microbit_hal_log_begin_row dev).1 /\
  collapses (endRow dev).1 (microbit_hal_log_end_row dev).1 /\
  collapses (logData key value dev).1 (microbit_hal_log_data key value dev).1 /\
  Forall (fun r => r = MICROBIT_HAL_DEVICE_OK \/
                   r = MICROBIT_HAL_DEVICE_NO_RESOURCES \/
                   r = MICROBIT_HAL_DEVICE_ERROR)
    [ (microbit_hal_log_begin_row dev).1;
      (microbit_hal_log_end_row dev).1;
      (microbit_hal_log_data key value dev).1 ].
Proof.
  intros Hdistinct.
  unfold microbit_hal_log_begin_row, microbit_hal_log_end_row, microbit_hal_log_data.
  destruct (beginRow dev) as [r1 d1], (endRow dev) as [r2 d2],
    (logData key value dev) as [r3 d3]. cbn [fst].
  repeat split; try (apply convert_return_value_collapses; exact Hdistinct).
  repeat (apply List.Forall_cons;
          [unfold microbit_hal_log_convert_return_value;
           repeat case_bool_decide; tauto |]).
  apply List.Forall_nil.
Qed.

End Codes.

(** * The statements on concrete inputs

    The scripted device [script_codal] with the header values [codal_errno]
    and [port_header] runs every statement above on an input of its own. *)

(** The logo pin with five touches reported, and button B with five
    presses. *)
Lemma poll_both_reports_edges_witness :
  0 < 5 <= 32767 /\
  (exists res,
     microbit_hal_pin_touch_state (HH := port_header) 19 (Some 0) (Some 0)
       hal_init (script [5] 1 0 0) = Some res /\
     was_out res = Some 1 /\
     num_out res = Some 5 /\
     array_get (touch_state (hal_after res)) (pin_state_index_of (HH := port_header) 19)
     = Some 0) /\
  (exists res,
     microbit_hal_button_state 1 (Some 0) (Some 0) hal_init (script [5] 1 0 0)
     = Some res /\
     was_out res = Some 1 /\
     num_out res = Some 5 /\
     array_get (button_state (hal_after res)) 1 = Some 0).
Proof.
  pose proof (poll_both_reports_edges (HH := port_header)
                hal_init (script [5] 1 0 0) 0 0 5 ltac:(lia)) as [Htouch Hbutton].
  split; [lia | split].
  - apply (Htouch 19 logo); reflexivity.
  - apply (Hbutton 1 buttonB); reflexivity.
Defined.

(** C1 as stated fails: button A, cell 0, 32768 presses reported.  The
    cell has 15 count bits; the poll writes activation_count = 0. *)
Lemma poll_both_count_overflows :
  exists res,
    array_get (button_state hal_init) 0 = Some 0 /\
    (wasPressed buttonA (script [32768] 1 0 0)).1 = 32768 /\
    microbit_hal_button_state 0 (Some 0) (Some 0) hal_init (script [32768] 1 0 0)
    = Some res /\
    was_out res = Some 1 /\
    num_out res = Some 0 /\
    num_out res <> Some 32768.
Proof.
  eexists. split; [reflexivity | split; [reflexivity | split]].
  - vm_compute. reflexivity.
  - cbn. repeat split. discriminate.
Qed.

(** Button A with a pending count of 3 and the flag set (cell 7), no new
    edge: the count-only poll keeps the flag, the flag-only poll keeps the
    count. *)
Lemma poll_single_output_frame_witness :
  (exists res cell',
     microbit_hal_button_state 0 None (Some 0)
       (set_button_state hal_init [7; 0]) (script [] 1 0 0) = Some res /\
     array_get (button_state (hal_after res)) 0 = Some cell' /\
     same_flag 7 cell') /\
  (exists res cell',
     microbit_hal_button_state 0 (Some 0) None
       (set_button_state hal_init [7; 0]) (script [] 1 0 0) = Some res /\
     array_get (button_state (hal_after res)) 0 = Some cell' /\
     same_count 7 cell').
Proof.
  destruct (proj2 (poll_single_output_frame (HH := port_header)
                     (set_button_state hal_init [7; 0]) (script [] 1 0 0) 0 7)
              0 buttonA eq_refl eq_refl)
    as [(res & cell' & Hres & Hcell & _ & Hflag & _)
        (res' & cell'' & Hres' & Hcell' & _ & Hcount)].
  split.
  - exists res, cell'. repeat split; [exact Hres | exact Hcell |].
    apply Hflag. reflexivity.
  - exists res', cell''. split; [exact Hres' | split; [exact Hcell' |]].
    apply Hcount. reflexivity.
Defined.

(** C2 as stated fails when the poll absorbs an edge: on the logo pin with
    cell 0 and one touch reported, the count-only poll stores 1 (bit 0 went
    from 0 to 1) and the flag-only poll stores 2 (the count bits went from
    0 to 1). *)
Lemma poll_single_output_changes_cell :
  exists res res',
    array_get (touch_state hal_init) (pin_state_index_of (HH := port_header) 19)
    = Some 0 /\
    microbit_hal_pin_touch_state (HH := port_header) 19 None (Some 0)
      hal_init (script [1] 1 0 0) = Some res /\
    array_get (touch_state (hal_after res)) (pin_state_index_of (HH := port_header) 19)
    = Some 1 /\
    Z.testbit 0 0 = false /\ Z.testbit 1 0 = true /\
    microbit_hal_pin_touch_state (HH := port_header) 19 (Some 0) None
      hal_init (script [1] 1 0 0) = Some res' /\
    array_get (touch_state (hal_after res')) (pin_state_index_of (HH := port_header) 19)
    = Some 2 /\
    Z.testbit 0 1 = false /\ Z.testbit 2 1 = true.
Proof.
  do 2 eexists.
  split; [reflexivity |].
  split; [vm_compute; reflexivity |].
  split; [reflexivity |].
  split; [reflexivity |].
  split; [reflexivity |].
  split; [vm_compute; reflexivity |].
  repeat split.
Qed.

(** Button A pressed twice, then polled twice for the flag: 1, then 0. *)
Lemma was_active_self_clearing_witness :
  exists res1 res2,
    microbit_hal_button_state 0 (Some 0) None hal_init (script [2] 1 0 0)
    = Some res1 /\
    was_out res1 = Some 1 /\
    (wasPressed buttonA (dev_after res1)).1 = 0 /\
    microbit_hal_button_state 0 (Some 0) (Some 0) (hal_after res1) (dev_after res1)
    = Some res2 /\
    was_out res2 = Some 0.
Proof.
  pose (dev := script [2] 1 0 0).
  let r := eval vm_compute in (microbit_hal_button_state 0 (Some 0) None hal_init dev) in
  lazymatch r with
  | Some ?x => pose (res1 := x)
  end.
  assert (Hres1 : microbit_hal_button_state 0 (Some 0) None hal_init dev = Some res1)
    by (vm_compute; reflexivity).
  destruct (proj2 (was_active_self_clearing (HH := port_header)
                     hal_init dev 0 0 None (Some 0) res1)
              0 buttonA eq_refl Hres1 eq_refl eq_refl)
    as [res2 [Hres2 Hwas2]].
  exists res1, res2.
  split; [exact Hres1 | split; [reflexivity | split; [reflexivity |]]].
  split; [exact Hres2 | exact Hwas2].
Defined.

(** Button A: batches of 3 and 4 presses absorbed by two flag-only polls,
    then a count poll. *)
Lemma count_accumulates_over_polls_witness :
  (0 < 3 /\ 0 < 4 /\ 3 + 4 <= 32767) /\
  exists res1 res2 res3,
    microbit_hal_button_state 0 (Some 0) None hal_init (script [3; 4] 1 0 0)
    = Some res1 /\
    microbit_hal_button_state 0 (Some 0) None (hal_after res1) (dev_after res1)
    = Some res2 /\
    microbit_hal_button_state 0 None (Some 0) (hal_after res2) (dev_after res2)
    = Some res3 /\
    num_out res3 = Some (3 + 4).
Proof.
  split; [lia |].
  exact (proj2 (count_accumulates_over_polls (HH := port_header)
                  hal_init (script [3; 4] 1 0 0) 3 4 0 0 0 None
                  ltac:(lia) ltac:(lia) ltac:(lia))
           0 buttonA eq_refl eq_refl eq_refl eq_refl eq_refl).
Defined.

(** C4 as stated fails: button A, cell 0, two batches of 16384 presses
    absorbed by two flag-only polls; the count poll writes 0, while
    A + B = 32768. *)
Lemma count_accumulation_overflows :
  exists res1 res2 res3,
    array_get (button_state hal_init) 0 = Some 0 /\
    (wasPressed buttonA (script [16384; 16384] 1 0 0)).1 = 16384 /\
    microbit_hal_button_state 0 (Some 0) None hal_init (script [16384; 16384] 1 0 0)
    = Some res1 /\
    (wasPressed buttonA (dev_after res1)).1 = 16384 /\
    microbit_hal_button_state 0 (Some 0) None (hal_after res1) (dev_after res1)
    = Some res2 /\
    (wasPressed buttonA (dev_after res2)).1 = 0 /\
    microbit_hal_button_state 0 None (Some 0) (hal_after res2) (dev_after res2)
    = Some res3 /\
    num_out res3 = Some 0 /\
    16384 + 16384 = 32768.
Proof.
  do 3 eexists.
  split; [reflexivity |].
  split; [reflexivity |].
  split; [vm_compute; reflexivity |].
  split; [reflexivity |].
  split; [vm_compute; reflexivity |].
  split; [reflexivity |].
  split; [vm_compute; reflexivity |].
  split; reflexivity.
Qed.

(** The logo pin with nine touches pending in the device: a poll without
    outputs returns the current state and leaves storage and device alone
    (the nine touches are still to be reported). *)
Lemma poll_without_outputs_bypasses_counter_witness :
  microbit_hal_pin_touch_state (HH := port_header) 19 None None
    hal_init (script [9] 1 0 0)
  = Some {| returned := 1; was_out := None; num_out := None;
            hal_after := hal_init; dev_after := script [9] 1 0 0 |} /\
  microbit_hal_button_state 1 None None hal_init (script [9] 1 0 0)
  = Some {| returned := 1; was_out := None; num_out := None;
            hal_after := hal_init; dev_after := script [9] 1 0 0 |}.
Proof.
  pose proof (poll_without_outputs_bypasses_counter (HH := port_header)
                hal_init (script [9] 1 0 0)) as [Htouch Hbutton].
  split.
  - exact (Htouch 19 logo eq_refl).
  - exact (Hbutton 1 buttonB eq_refl).
Defined.

(** Levels -3, 12 and 5 at pixel (1, 1). *)
Lemma set_pixel_brightness_map_witness :
  microbit_hal_display_set_pixel 1 1 (-3) (script [] 0 0 0)
  = Some (setPixelValue 1 1 0 (script [] 0 0 0)) /\
  microbit_hal_display_set_pixel 1 1 12 (script [] 0 0 0)
  = Some (setPixelValue 1 1 255 (script [] 0 0 0)) /\
  microbit_hal_display_set_pixel 1 1 5 (script [] 0 0 0)
  = Some (setPixelValue 1 1 16 (script [] 0 0 0)).
Proof.
  destruct (set_pixel_brightness_map 1 1 (script [] 0 0 0))
    as (Hbelow & Habove & Hlevels).
  split; [apply Hbelow; lia | split; [apply Habove; lia |]].
  exact (proj1 (List.Forall_forall _ _) Hlevels (5, 16) ltac:(cbn; tauto)).
Defined.

(** Level 5 at pixel (2, 3) of the scripted image, which reads back what
    was written. *)
Lemma brightness_round_trip_witness :
  1 <= 5 <= 9 /\
  exists dev',
    microbit_hal_display_set_pixel 2 3 5 (script [] 0 0 0) = Some dev' /\
    microbit_hal_display_get_pixel 2 3 dev' = Some 5.
Proof.
  split; [lia |].
  apply brightness_round_trip; [lia |].
  intros v d Hv. cbn. rewrite bool_decide_eq_true_2; [reflexivity | split; reflexivity].
Defined.

(** C7 as stated fails twice.  At pixel (7, 7), outside the 5 by 5 image,
    the write of level 5 is refused and the read answers -1001, which
    decodes to 32.  At level 0 the raw intensity written is 0 and reading
    it back computes [32 - __builtin_clz(0)], which has no defined
    result. *)
Lemma brightness_round_trip_fails :
  exists (dev1 : Matrix) (dev2 : Script),
    microbit_hal_display_set_pixel 7 7 5 {| behind := script [] 0 0 0 |} = Some dev1 /\
    getPixelValue 7 7 dev1 = -1001 /\
    microbit_hal_display_get_pixel 7 7 dev1 = Some 32 /\
    microbit_hal_display_set_pixel 2 3 0 (script [] 0 0 0) = Some dev2 /\
    getPixelValue 2 3 dev2 = 0 /\
    microbit_hal_display_get_pixel 2 3 dev2 = None.
Proof.
  do 2 eexists.
  split; [vm_compute; reflexivity |].
  split; [reflexivity |].
  split; [vm_compute; reflexivity |].
  split; [vm_compute; reflexivity |].
  split; [reflexivity |].
  vm_compute. reflexivity.
Qed.

(** Pin 0 in analog mode with the default period of 20000 us: the period
    comes back unchanged. *)
Lemma analog_period_sentinel_witness :
  array_get pin_obj 0 = Some P0 /\
  exists r : Z,
    microbit_hal_pin_get_analog_period_us (HE := codal_errno) 0 (script [] 0 20000 0)
    = Some (r, script [] 0 20000 0) /\
    r = 20000.
Proof.
  split; [reflexivity |].
  destruct (analog_period_sentinel (HE := codal_errno) 0 P0 (script [] 0 20000 0) eq_refl)
    as (r & Hres & _ & Hperiod & _ & _).
  exists r. split; [exact Hres |].
  apply Hperiod. vm_compute. discriminate.
Defined.

(** C8 as stated fails in one direction: when the device layer reports the
    value -1, which is not [DEVICE_NOT_SUPPORTED], the function returns -1. *)
Lemma analog_period_minus_one_passes :
  (getAnalogPeriodUs P0 (script [] 0 (-1) 0)).1 = -1 /\
  DEVICE_NOT_SUPPORTED (ErrorNo := codal_errno) = -1002 /\
  microbit_hal_pin_get_analog_period_us (HE := codal_errno) 0 (script [] 0 (-1) 0)
  = Some (-1, script [] 0 (-1) 0).
Proof.
  split; [reflexivity | split; [reflexivity | vm_compute; reflexivity]].
Qed.

(** The log store out of space: [beginRow] answers [DEVICE_NO_RESOURCES]. *)
Lemma log_codes_collapse_witness :
  DEVICE_OK (ErrorNo := codal_errno) <> DEVICE_NO_RESOURCES (ErrorNo := codal_errno) /\
  (microbit_hal_log_begin_row (HE := codal_errno) (HH := port_header)
     (script [] 0 0 (-1005))).1
  = MICROBIT_HAL_DEVICE_NO_RESOURCES (HalHeader := port_header).
Proof.
  assert (Hdistinct : DEVICE_OK (ErrorNo := codal_errno)
                      <> DEVICE_NO_RESOURCES (ErrorNo := codal_errno))
    by (cbn; lia).
  split; [exact Hdistinct |].
  destruct (log_codes_collapse (HE := codal_errno) (HH := port_header)
              (script [] 0 0 (-1005)) "temp" "21" Hdistinct)
    as ((_ & Hfull & _) & _).
  apply Hfull. reflexivity.
Defined.

(** * Further properties of the polls *)

(** A poll that hands out both fields stores 0. *)
Lemma cell_poll_both_zero (w n state t : Z) :
  (cell_poll (Some w) (Some n) state t).2 = 0.
Proof.
  unfold cell_poll, cell_take_flag, cell_take_count.
  cbv beta iota zeta. cbn [fst snd].
  rewrite land_1_mod, land_lnot_1. unwrap. div_mod_lia.
Qed.

(** The count handed out is the pending count plus the new edges, modulo
    [2^15]. *)
Lemma cell_poll_count_mod (was : option Z) (n cell t : Z) :
  0 <= cell < 65536 ->
  (cell_poll was (Some n) cell t).1.2 = Some ((cell `div` 2 + t) `mod` 32768).
Proof.
  intros Hcell. unfold cell_poll, cell_take_flag, cell_take_count.
  destruct (Z.eq_dec t 0) as [-> | Ht].
  - rewrite cell_absorb_none.
    destruct was as [w |]; cbv beta iota zeta; cbn [fst snd]; f_equal;
      rewrite ?land_lnot_1, shiftr_1_div; unwrap; div_mod_lia.
  - rewrite cell_absorb_some by exact Ht.
    destruct was as [w |]; cbv beta iota zeta; cbn [fst snd]; f_equal;
      rewrite ?land_lnot_1, shiftr_1_div; unwrap; div_mod_lia.
Qed.

(** The flag handed out is 1 when an edge is reported or the stored flag
    was set, and 0 otherwise. *)
Lemma cell_poll_flag_value (w : Z) (num : option Z) (cell t : Z) :
  (cell_poll (Some w) num cell t).1.1
  = Some (Z.b2z (Z.testbit cell 0 || bool_decide (t <> 0))).
Proof.
  unfold cell_poll, cell_take_flag, cell_take_count.
  assert (Hbit : Z.land (cell_absorb cell t) 1
                 = Z.b2z (Z.testbit cell 0 || bool_decide (t <> 0))).
  { rewrite <- cell_absorb_bit0, Z.bit0_mod. apply land_1_mod. }
  destruct num as [n |]; cbv beta iota zeta; cbn [fst snd]; rewrite Hbit; reflexivity.
Qed.

(** After a read of the count the stored cell is 0 or 1. *)
Lemma cell_poll_count_cleared (was : option Z) (n state t : Z) :
  0 <= (cell_poll was (Some n) state t).2 <= 1.
Proof.
  unfold cell_poll, cell_take_flag, cell_take_count.
  destruct was as [w |]; cbv beta iota zeta; cbn [fst snd];
    rewrite !land_1_mod; unwrap; div_mod_lia.
Qed.

Lemma array_get_insert_ne {A : Type} (a : list A) (i j : Z) (v : A) :
  0 <= i -> i <> j -> array_get (<[Z.to_nat i := v]> a) j = array_get a j.
Proof.
  intros Hi Hne. unfold array_get. case_bool_decide as Hj; [| reflexivity].
  apply list_lookup_insert_ne. lia.
Qed.

Section MorePolls.
Context `{HC : Codal uBit} `{HH : HalHeader}.

(** X1: a poll that asks for both outputs stores 0 in the cell of its input,
    whatever the cell held and whatever edge count the device reports. *)
Theorem poll_both_always_clears (hal : Hal) (dev : uBit) (w n cell : Z) :
  (forall (pin : Z) (p : Pin),
     array_get pin_obj pin = Some p ->
     array_get (touch_state hal) (pin_state_index_of pin) = Some cell ->
     exists res,
       microbit_hal_pin_touch_state pin (Some w) (Some n) hal dev = Some res /\
       array_get (touch_state (hal_after res)) (pin_state_index_of pin) = Some 0) /\
  (forall (button : Z) (b : Button),
     array_get button_obj button = Some b ->
     array_get (button_state hal) button = Some cell ->
     exists res,
       microbit_hal_button_state button (Some w) (Some n) hal dev = Some res /\
       array_get (button_state (hal_after res)) button = Some 0).
Proof.
  split.
  - intros pin p Hp Hcell. eexists. split.
    + apply (touch_state_poll pin p (Some w) (Some n) hal dev cell Hp Hcell).
      left. eauto.
    + cbn [hal_after set_touch_state touch_state].
      rewrite cell_poll_both_zero. eapply array_get_insert. exact Hcell.
  - intros button b Hb Hcell. eexists. split.
    + apply (button_state_poll button b (Some w) (Some n) hal dev cell Hb Hcell).
      left. eauto.
    + cbn [hal_after set_button_state button_state].
      rewrite cell_poll_both_zero. eapply array_get_insert. exact Hcell.
Qed.

(** X2: a poll that asks for the count writes the pending count of the cell
    plus the reported edge count, reduced modulo 32768; the cell is a
    [uint16_t], so it holds a value below 65536. *)
Theorem poll_count_modulo (hal : Hal) (dev : uBit) (was : option Z) (n cell : Z) :
  0 <= cell < 65536 ->
  (forall (pin : Z) (p : Pin),
     array_get pin_obj pin = Some p ->
     array_get (touch_state hal) (pin_state_index_of pin) = Some cell ->
     exists res,
       microbit_hal_pin_touch_state pin was (Some n) hal dev = Some res /\
       num_out res = Some ((cell `div` 2 + (wasTouched p dev).1) `mod` 32768)) /\
  (forall (button : Z) (b : Button),
     array_get button_obj button = Some b ->
     array_get (button_state hal) button = Some cell ->
     exists res,
       microbit_hal_button_state button was (Some n) hal dev = Some res /\
       num_out res = Some ((cell `div` 2 + (wasPressed b dev).1) `mod` 32768)).
Proof.
  intros Hrange. split.
  - intros pin p Hp Hcell. eexists. split.
    + apply (touch_state_poll pin p was (Some n) hal dev cell Hp Hcell).
      right. eauto.
    + cbn [num_out]. apply cell_poll_count_mod. exact Hrange.
  - intros button b Hb Hcell. eexists. split.
    + apply (button_state_poll button b was (Some n) hal dev cell Hb Hcell).
      right. eauto.
    + cbn [num_out]. apply cell_poll_count_mod. exact Hrange.
Qed.

(** X3: a poll that asks for the flag writes 1 when the device reports a
    non-zero edge count or bit 0 of the cell was set, and 0 otherwise. *)
Theorem poll_flag_value (hal : Hal) (dev : uBit) (w : Z) (num : option Z) (cell : Z) :
  (forall (pin : Z) (p : Pin),
     array_get pin_obj pin = Some p ->
     array_get (touch_state hal) (pin_state_index_of pin) = Some cell ->
     exists res,
       microbit_hal_pin_touch_state pin (Some w) num hal dev = Some res /\
       was_out res
       = Some (Z.b2z (Z.testbit cell 0 || bool_decide ((wasTouched p dev).1 <> 0)))) /\
  (forall (button : Z) (b : Button),
     array_get button_obj button = Some b ->
     array_get (button_state hal) button = Some cell ->
     exists res,
       microbit_hal_button_state button (Some w) num hal dev = Some res /\
       was_out res
       = Some (Z.b2z (Z.testbit cell 0 || bool_decide ((wasPressed b dev).1 <> 0)))).
Proof.
  split.
  - intros pin p Hp Hcell. eexists. split.
    + apply (touch_state_poll pin p (Some w) num hal dev cell Hp Hcell).
      left. eauto.
    + cbn [was_out]. apply cell_poll_flag_value.
  - intros button b Hb Hcell. eexists. split.
    + apply (button_state_poll button b (Some w) num hal dev cell Hb Hcell).
      left. eauto.
    + cbn [was_out]. apply cell_poll_flag_value.
Qed.

(** A cell that is 0 or 1 has no pending count. *)
Lemma cell_poll_count_empty (was : option Z) (n c : Z) :
  0 <= c <= 1 -> (cell_poll was (Some n) c 0).1.2 = Some 0.
Proof.
  intros Hc. rewrite cell_poll_count_mod by lia. f_equal. div_mod_lia.
Qed.

(** X4: when a poll that asked for the count is followed by a poll of the
    same input at which no new edge is reported, the second poll writes
    count 0. *)
Theorem count_read_self_clearing (hal : Hal) (dev : uBit) (n1 n2 : Z)
    (was1 was2 : option Z) (res1 : Polled uBit) :
  (forall (pin : Z) (p : Pin),
     array_get pin_obj pin = Some p ->
     microbit_hal_pin_touch_state pin was1 (Some n1) hal dev = Some res1 ->
     (wasTouched p (dev_after res1)).1 = 0 ->
     exists res2,
       microbit_hal_pin_touch_state pin was2 (Some n2) (hal_after res1) (dev_after res1)
       = Some res2 /\
       num_out res2 = Some 0) /\
  (forall (button : Z) (b : Button),
     array_get button_obj button = Some b ->
     microbit_hal_button_state button was1 (Some n1) hal dev = Some res1 ->
     (wasPressed b (dev_after res1)).1 = 0 ->
     exists res2,
       microbit_hal_button_state button was2 (Some n2) (hal_after res1) (dev_after res1)
       = Some res2 /\
       num_out res2 = Some 0).
Proof.
  split.
  - intros pin p Hp Hres1 Hquiet.
    destruct (touch_state_defined pin p was1 (Some n1) hal dev res1 Hp) as [cell Hcell];
      [right; eauto | exact Hres1 |].
    rewrite (touch_state_poll pin p was1 (Some n1) hal dev cell Hp Hcell) in Hres1
      by (right; eauto).
    injection Hres1 as <-. cbn [hal_after dev_after] in *.
    eexists. split.
    + apply (touch_state_poll pin p was2 (Some n2)); [exact Hp | | right; eauto].
      cbn [set_touch_state touch_state]. eapply array_get_insert. exact Hcell.
    + cbn [num_out]. rewrite Hquiet. apply cell_poll_count_empty.
      apply cell_poll_count_cleared.
  - intros button b Hb Hres1 Hquiet.
    destruct (button_state_defined button b was1 (Some n1) hal dev res1 Hb) as [cell Hcell];
      [right; eauto | exact Hres1 |].
    rewrite (button_state_poll button b was1 (Some n1) hal dev cell Hb Hcell) in Hres1
      by (right; eauto).
    injection Hres1 as <-. cbn [hal_after dev_after] in *.
    eexists. split.
    + apply (button_state_poll button b was2 (Some n2)); [exact Hb | | right; eauto].
      cbn [set_button_state button_state]. eapply array_get_insert. exact Hcell.
    + cbn [num_out]. rewrite Hquiet. apply cell_poll_count_empty.
      apply cell_poll_count_cleared.
Qed.

End MorePolls.

Section PollFrames.
Context `{HC : Codal uBit} `{HH : HalHeader}.

(** X5: a poll changes at most the cell of its input: the pull-mode table,
    the cells of the other kind of input and every other cell of the same
    table are as before, and the table keeps its length. *)
Theorem poll_frame (hal : Hal) (dev : uBit) (was num : option Z) (res : Polled uBit) :
  (forall pin : Z,
     microbit_hal_pin_touch_state pin was num hal dev = Some res ->
     pin_pull_state (hal_after res) = pin_pull_state hal /\
     button_state (hal_after res) = button_state hal /\
     length (touch_state (hal_after res)) = length (touch_state hal) /\
     forall j : Z, j <> pin_state_index_of pin ->
       array_get (touch_state (hal_after res)) j = array_get (touch_state hal) j) /\
  (forall button : Z,
     microbit_hal_button_state button was num hal dev = Some res ->
     pin_pull_state (hal_after res) = pin_pull_state hal /\
     touch_state (hal_after res) = touch_state hal /\
     length (button_state (hal_after res)) = length (button_state hal) /\
     forall j : Z, j <> button ->
       array_get (button_state (hal_after res)) j = array_get (button_state hal) j).
Proof.
  split.
  - intros pin Hres.
    destruct (array_get pin_obj pin) as [p |] eqn:Hp.
    + assert (Hcase : (was = None /\ num = None) \/ (is_Some was \/ is_Some num))
        by (destruct was, num; eauto).
      destruct Hcase as [[-> ->] | Hask].
      * unfold microbit_hal_pin_touch_state in Hres. rewrite Hp in Hres.
        simpl in Hres. destruct (isTouched p dev) as [r d]. injection Hres as <-.
        repeat split.
      * destruct (touch_state_defined pin p was num hal dev res Hp Hask Hres)
          as [cell Hcell].
        rewrite (touch_state_poll pin p was num hal dev cell Hp Hcell Hask) in Hres.
        injection Hres as <-.
        cbn [hal_after set_touch_state pin_pull_state button_state touch_state].
        repeat split; [apply length_insert |].
        intros j Hj. apply array_get_insert_ne;
          [apply (array_get_bounds _ _ _ Hcell) | congruence].
    + exfalso. unfold microbit_hal_pin_touch_state in Hres. rewrite Hp in Hres.
      destruct was, num; discriminate.
  - intros button Hres.
    destruct (array_get button_obj button) as [b |] eqn:Hb.
    + assert (Hcase : (was = None /\ num = None) \/ (is_Some was \/ is_Some num))
        by (destruct was, num; eauto).
      destruct Hcase as [[-> ->] | Hask].
      * unfold microbit_hal_button_state in Hres. rewrite Hb in Hres.
        simpl in Hres. destruct (isPressed b dev) as [r d]. injection Hres as <-.
        repeat split.
      * destruct (button_state_defined button b was num hal dev res Hb Hask Hres)
          as [cell Hcell].
        rewrite (button_state_poll button b was num hal dev cell Hb Hcell Hask) in Hres.
        injection Hres as <-.
        cbn [hal_after set_button_state pin_pull_state button_state touch_state].
        repeat split; [apply length_insert |].
        intros j Hj. apply array_get_insert_ne;
          [apply (array_get_bounds _ _ _ Hcell) | congruence].
    + exfalso. unfold microbit_hal_button_state in Hres. rewrite Hb in Hres.
      discriminate.
Qed.

(** X6: [touch_state] has four slots.  On a pin of [pin_obj], a poll that
    asks for an output indexes [touch_state] inside the array exactly when
    the pin is the logo pin or one of the pins 0 to 3; for every other pin
    the access is out of bounds. *)
Theorem touch_poll_bounds (hal : Hal) (dev : uBit) (pin : Z) (p : Pin)
    (was num : option Z) :
  length (touch_state hal) = 4%nat ->
  array_get pin_obj pin = Some p ->
  is_Some was \/ is_Some num ->
  is_Some (microbit_hal_pin_touch_state pin was num hal dev) <->
  pin = MICROBIT_HAL_PIN_LOGO \/ 0 <= pin <= 3.
Proof.
  intros Hlen Hp Hask. split.
  - intros [res Hres].
    destruct (touch_state_defined pin p was num hal dev res Hp Hask Hres) as [cell Hcell].
    apply array_get_bounds in Hcell. rewrite Hlen in Hcell.
    unfold pin_state_index_of in Hcell. case_bool_decide; [left; assumption | right; lia].
  - intros Hpin.
    assert (Hidx : 0 <= pin_state_index_of pin < 4).
    { unfold pin_state_index_of. case_bool_decide; lia. }
    destruct (lookup_lt_is_Some_2 (touch_state hal) (Z.to_nat (pin_state_index_of pin)))
      as [cell Hcell]; [lia |].
    assert (Hget : array_get (touch_state hal) (pin_state_index_of pin) = Some cell).
    { unfold array_get. rewrite bool_decide_eq_true_2 by lia. exact Hcell. }
    rewrite (touch_state_poll pin p was num hal dev cell Hp Hget Hask). eauto.
Qed.

End PollFrames.

(** ** Runs of flag-only polls *)

Lemma cell_poll_flag_only_step (w k t : Z) :
  0 <= k -> 0 <= t -> k + t <= 32767 ->
  (cell_poll (Some w) None (2 * k) t).2 = 2 * (k + t).
Proof.
  intros Hk Ht Hsum. unfold cell_poll, cell_take_flag, cell_take_count.
  cbv beta iota zeta. cbn [fst snd].
  destruct (Z.eq_dec t 0) as [-> | Hne].
  - rewrite cell_absorb_none, land_lnot_1. unwrap. div_mod_lia.
  - rewrite cell_absorb_some, land_lnot_1 by exact Hne. unwrap. div_mod_lia.
Qed.

Lemma sum_batches_nonneg (batches : list Z) :
  Forall (fun t => 0 <= t) batches -> 0 <= sum_batches batches.
Proof.
  unfold sum_batches. induction 1 as [| t rest Ht Hrest IH]; cbn [foldr]; lia.
Qed.

Section Runs.
Context `{HC : Codal uBit} `{HH : HalHeader}.

Lemma touch_flag_polls_sum (pin : Z) (p : Pin) (batches : list Z) :
  forall (hal : Hal) (dev : uBit) (k : Z),
  array_get pin_obj pin = Some p ->
  array_get (touch_state hal) (pin_state_index_of pin) = Some (2 * k) ->
  0 <= k ->
  Forall (fun t => 0 <= t) batches ->
  k + sum_batches batches <= 32767 ->
  (forall (i : nat) (t : Z), batches !! i = Some t ->
     (wasTouched p (Nat.iter i (touch_dev_next p) dev)).1 = t) ->
  exists hal',
    touch_flag_polls pin (length batches) hal dev
    = Some (hal', Nat.iter (length batches) (touch_dev_next p) dev) /\
    array_get (touch_state hal') (pin_state_index_of pin)
    = Some (2 * (k + sum_batches batches)).
Proof.
  induction batches as [| t rest IH]; intros hal dev k Hp Hcell Hk Hpos Hsum Hdev.
  - exists hal. split; [reflexivity |].
    unfold sum_batches. cbn [foldr]. rewrite Z.add_0_r. exact Hcell.
  - inversion Hpos as [| t' rest' Ht Hrest]; subst t' rest'.
    pose proof (sum_batches_nonneg rest Hrest) as Hnonneg.
    unfold sum_batches in Hsum. cbn [foldr] in Hsum. fold (sum_batches rest) in Hsum.
    cbn [touch_flag_polls length].
    rewrite (touch_state_poll pin p (Some 0) None hal dev (2 * k) Hp Hcell)
      by (left; eauto).
    cbn [mbind option_bind hal_after dev_after].
    pose proof (Hdev 0%nat t eq_refl) as Hfirst.
    change (Nat.iter 0 (touch_dev_next p) dev) with dev in Hfirst.
    rewrite Hfirst, cell_poll_flag_only_step by lia.
    destruct (IH (set_touch_state hal
                    (<[Z.to_nat (pin_state_index_of pin) := 2 * (k + t)]>
                       (touch_state hal)))
                (touch_dev_next p dev) (k + t)) as [hal' [Hrun Hfinal]].
    + exact Hp.
    + cbn [set_touch_state touch_state]. eapply array_get_insert. exact Hcell.
    + lia.
    + exact Hrest.
    + lia.
    + intros i t' Hi. rewrite <- Nat.iter_succ_r. apply Hdev. exact Hi.
    + exists hal'. split.
      * rewrite Hrun, Nat.iter_succ_r. reflexivity.
      * rewrite Hfinal. unfold sum_batches. cbn [foldr]. f_equal. lia.
Qed.

Lemma button_flag_polls_sum (button : Z) (b : Button) (batches : list Z) :
  forall (hal : Hal) (dev : uBit) (k : Z),
  array_get button_obj button = Some b ->
  array_get (button_state hal) button = Some (2 * k) ->
  0 <= k ->
  Forall (fun t => 0 <= t) batches ->
  k + sum_batches batches <= 32767 ->
  (forall (i : nat) (t : Z), batches !! i = Some t ->
     (wasPressed b (Nat.iter i (button_dev_next b) dev)).1 = t) ->
  exists hal',
    button_flag_polls button (length batches) hal dev
    = Some (hal', Nat.iter (length batches) (button_dev_next b) dev) /\
    array_get (button_state hal') button = Some (2 * (k + sum_batches batches)).
Proof.
  induction batches as [| t rest IH]; intros hal dev k Hb Hcell Hk Hpos Hsum Hdev.
  - exists hal. split; [reflexivity |].
    unfold sum_batches. cbn [foldr]. rewrite Z.add_0_r. exact Hcell.
  - inversion Hpos as [| t' rest' Ht Hrest]; subst t' rest'.
    pose proof (sum_batches_nonneg rest Hrest) as Hnonneg.
    unfold sum_batches in Hsum. cbn [foldr] in Hsum. fold (sum_batches rest) in Hsum.
    cbn [button_flag_polls length].
    rewrite (button_state_poll button b (Some 0) None hal dev (2 * k) Hb Hcell)
      by (left; eauto).
    cbn [mbind option_bind hal_after dev_after].
    pose proof (Hdev 0%nat t eq_refl) as Hfirst.
    change (Nat.iter 0 (button_dev_next b) dev) with dev in Hfirst.
    rewrite Hfirst, cell_poll_flag_only_step by lia.
    destruct (IH (set_button_state hal
                    (<[Z.to_nat button := 2 * (k + t)]> (button_state hal)))
                (button_dev_next b dev) (k + t)) as [hal' [Hrun Hfinal]].
    + exact Hb.
    + cbn [set_button_state button_state]. eapply array_get_insert. exact Hcell.
    + lia.
    + exact Hrest.
    + lia.
    + intros i t' Hi. rewrite <- Nat.iter_succ_r. apply Hdev. exact Hi.
    + exists hal'. split.
      * rewrite Hrun, Nat.iter_succ_r. reflexivity.
      * rewrite Hfinal. unfold sum_batches. cbn [foldr]. f_equal. lia.
Qed.

(** X7: from a cell that holds 0, any number of polls that ask for the flag
    only, absorbing edge batches of non-negative sizes whose sum is at most
    32767, followed by a poll that asks for the count at which no further
    edge is reported: that poll writes the sum of the batches. *)
Theorem flag_polls_accumulate (batches : list Z) (hal : Hal) (dev : uBit) (n : Z)
    (was : option Z) :
  Forall (fun t => 0 <= t) batches ->
  sum_batches batches <= 32767 ->
  (forall (pin : Z) (p : Pin),
     array_get pin_obj pin = Some p ->
     array_get (touch_state hal) (pin_state_index_of pin) = Some 0 ->
     (forall (i : nat) (t : Z), batches !! i = Some t ->
        (wasTouched p (Nat.iter i (touch_dev_next p) dev)).1 = t) ->
     (wasTouched p (Nat.iter (length batches) (touch_dev_next p) dev)).1 = 0 ->
     exists hal' dev' res,
       touch_flag_polls pin (length batches) hal dev = Some (hal', dev') /\
       microbit_hal_pin_touch_state pin was (Some n) hal' dev' = Some res /\
       num_out res = Some (sum_batches batches)) /\
  (forall (button : Z) (b : Button),
     array_get button_obj button = Some b ->
     array_get (button_state hal) button = Some 0 ->
     (forall (i : nat) (t : Z), batches !! i = Some t ->
        (wasPressed b (Nat.iter i (button_dev_next b) dev)).1 = t) ->
     (wasPressed b (Nat.iter (length batches) (button_dev_next b) dev)).1 = 0 ->
     exists hal' dev' res,
       button_flag_polls button (length batches) hal dev = Some (hal', dev') /\
       microbit_hal_button_state button was (Some n) hal' dev' = Some res /\
       num_out res = Some (sum_batches batches)).
Proof.
  intros Hpos Hsum.
  pose proof (sum_batches_nonneg batches Hpos) as Hnonneg.
  split.
  - intros pin p Hp Hcell Hdev Hquiet.
    destruct (touch_flag_polls_sum pin p batches hal dev 0 Hp Hcell)
      as [hal' [Hrun Hfinal]]; [lia | exact Hpos | lia | exact Hdev |].
    do 3 eexists. split; [exact Hrun | split].
    + apply (touch_state_poll pin p was (Some n)); [exact Hp | exact Hfinal |].
      right. eauto.
    + cbn [num_out]. rewrite Hquiet. apply cell_poll_count_quiet. lia.
  - intros button b Hb Hcell Hdev Hquiet.
    destruct (button_flag_polls_sum button b batches hal dev 0 Hb Hcell)
      as [hal' [Hrun Hfinal]]; [lia | exact Hpos | lia | exact Hdev |].
    do 3 eexists. split; [exact Hrun | split].
    + apply (button_state_poll button b was (Some n)); [exact Hb | exact Hfinal |].
      right. eauto.
    + cbn [num_out]. rewrite Hquiet. apply cell_poll_count_quiet. lia.
Qed.

End Runs.

(** * Further properties of the display *)

(** The level [microbit_hal_display_get_pixel] computes from the [int] the
    image hands back. *)
Lemma get_pixel_of_value `{HC : Codal uBit} (x y : Z) (dev : uBit) :
  microbit_hal_display_get_pixel x y dev
  = let pixel := uint32_wrap (getPixelValue x y dev) in
    if bool_decide (pixel = 255) then Some 9
    else c ← builtin_clz pixel; Some (32 - c).
Proof. reflexivity. Qed.

(** The check of X9 on every raw intensity from 1 to 255, as a boolean. *)
Lemma decoder_floors_checked :
  forallb
    (fun raw =>
       let pixel := uint32_wrap raw in
       match (if bool_decide (pixel = 255) then Some 9
              else c ← builtin_clz pixel; Some (32 - c)) with
       | Some level =>
           (1 <=? level) && (level <=? 9) &&
           match array_get bright_map level with
           | Some lo =>
               (lo <=? raw) &&
               match array_get bright_map (level + 1) with
               | Some hi => raw <? hi
               | None => true
               end
           | None => false
           end
       | None => false
       end)
    (seqZ 1 255) = true.
Proof. vm_compute. reflexivity. Qed.

Section MoreDisplay.
Context `{HC : Codal uBit}.

(** X8: when the image answers a negative [int] for the pixel (an error
    code, as for a coordinate outside the image),
    [microbit_hal_display_get_pixel] returns 32, which is no brightness
    level. *)
Theorem get_pixel_of_error_code (x y : Z) (dev : uBit) :
  - 2 ^ 31 <= getPixelValue x y dev < 0 ->
  microbit_hal_display_get_pixel x y dev = Some 32.
Proof.
  intros Hneg. rewrite get_pixel_of_value. cbv zeta.
  assert (Hpixel : uint32_wrap (getPixelValue x y dev) = getPixelValue x y dev + 2 ^ 32).
  { unwrap. div_mod_lia. }
  rewrite Hpixel.
  change (2 ^ 31) with 2147483648 in Hneg. change (2 ^ 32) with 4294967296.
  rewrite bool_decide_eq_false_2 by lia.
  assert (Hlog : Z.log2 (getPixelValue x y dev + 4294967296) = 31).
  { apply Z.log2_unique; [lia |]. change (2 ^ 31) with 2147483648.
    change (2 ^ Z.succ 31) with 4294967296. lia. }
  rewrite builtin_clz_log2 by (change (2 ^ 32) with 4294967296; lia).
  rewrite Hlog. reflexivity.
Qed.

(** What the decoder answers on a raw intensity from 1 to 255. *)
Lemma get_pixel_floor (x y : Z) (dev : uBit) :
  1 <= getPixelValue x y dev <= 255 ->
  exists level lo : Z,
    microbit_hal_display_get_pixel x y dev = Some level /\
    1 <= level <= 9 /\
    array_get bright_map level = Some lo /\
    lo <= getPixelValue x y dev /\
    forall hi : Z,
      array_get bright_map (level + 1) = Some hi -> getPixelValue x y dev < hi.
Proof.
  intros Hraw. rewrite get_pixel_of_value.
  pose proof decoder_floors_checked as Hall.
  rewrite forallb_forall in Hall.
  specialize (Hall (getPixelValue x y dev)).
  rewrite <- list_elem_of_In, elem_of_seqZ in Hall.
  specialize (Hall ltac:(lia)).
  cbv zeta in *.
  destruct (if bool_decide (uint32_wrap (getPixelValue x y dev) = 255)
            then Some 9
            else c ← builtin_clz (uint32_wrap (getPixelValue x y dev)); Some (32 - c))
    as [level |]; [| discriminate].
  apply andb_prop in Hall as [Hbounds Htable].
  apply andb_prop in Hbounds as [Hlow Hhigh].
  apply Z.leb_le in Hlow, Hhigh.
  destruct (array_get bright_map level) as [lo |] eqn:Hentry; [| discriminate].
  apply andb_prop in Htable as [Hlo Hnext]. apply Z.leb_le in Hlo.
  exists level, lo.
  split; [reflexivity | split; [lia | split; [exact Hentry | split; [exact Hlo |]]]].
  intros hi Hhi. rewrite Hhi in Hnext. apply Z.ltb_lt. exact Hnext.
Qed.

(** At raw intensity 0 the decoder asks for [__builtin_clz(0)]. *)
Lemma get_pixel_of_zero (x y : Z) (dev : uBit) :
  getPixelValue x y dev = 0 -> microbit_hal_display_get_pixel x y dev = None.
Proof. intros Hraw. rewrite get_pixel_of_value, Hraw. reflexivity. Qed.

(** X9: on a raw intensity between 1 and 255,
    [microbit_hal_display_get_pixel] returns the greatest level of
    [bright_map] whose entry does not exceed the intensity: a level between
    1 and 9 whose entry is at most the intensity, while the entry of the
    next level, if there is one, is above it.  On raw intensity 0 it
    computes [32 - __builtin_clz(0)], which has no defined result. *)
Theorem get_pixel_floors_into_table (x y : Z) (dev : uBit) :
  let raw := getPixelValue x y dev in
  (1 <= raw <= 255 ->
   exists level lo : Z,
     microbit_hal_display_get_pixel x y dev = Some level /\
     1 <= level <= 9 /\
     array_get bright_map level = Some lo /\
     lo <= raw /\
     forall hi : Z, array_get bright_map (level + 1) = Some hi -> raw < hi) /\
  (raw = 0 -> microbit_hal_display_get_pixel x y dev = None).
Proof.
  intros raw. subst raw. split.
  - intros Hraw. destruct (get_pixel_floor x y dev Hraw) as (level & lo & Hfloor).
    exists level, lo. exact Hfloor.
  - apply get_pixel_of_zero.
Qed.

(** Writing a level and reading it back, for an image that reads back what
    was written: the raw intensity written is the entry of the clamped
    level. *)
Lemma set_pixel_clamped (x y level : Z) (dev : uBit) :
  exists raw : Z,
    array_get bright_map (Z.max 0 (Z.min 9 level)) = Some raw /\
    microbit_hal_display_set_pixel x y level dev = Some (setPixelValue x y raw dev).
Proof.
  unfold microbit_hal_display_set_pixel. cbv zeta.
  set (c := if bool_decide (level < 0) then 0
            else if bool_decide (level > 9) then 9 else level).
  assert (Hc : c = Z.max 0 (Z.min 9 level)).
  { subst c. repeat case_bool_decide; lia. }
  rewrite Hc. clear c Hc.
  destruct (array_get bright_map (Z.max 0 (Z.min 9 level))) as [raw |] eqn:Hraw.
  - exists raw. split; reflexivity.
  - exfalso. unfold array_get in Hraw.
    rewrite bool_decide_eq_true_2 in Hraw by lia.
    apply lookup_ge_None in Hraw. cbn [bright_map length] in Hraw. lia.
Qed.

Lemma set_get_pixel_clamped (x y level : Z) (dev : uBit) :
  (forall (v : Z) (d : uBit), 0 <= v <= 255 ->
     getPixelValue x y (setPixelValue x y v d) = v) ->
  1 <= level ->
  exists dev',
    microbit_hal_display_set_pixel x y level dev = Some dev' /\
    microbit_hal_display_get_pixel x y dev' = Some (Z.min 9 level).
Proof.
  intros Himage Hlevel.
  destruct (set_pixel_clamped x y level dev) as (raw & Hraw & Hset).
  eexists. split; [exact Hset |].
  rewrite get_pixel_of_value, Himage by (eapply bright_map_range; exact Hraw).
  replace (Z.min 9 level) with (Z.max 0 (Z.min 9 level)) by lia.
  apply decode_bright_map; [exact Hraw | lia].
Qed.

(** X10: at a pixel at which the image reads back the raw intensity
    written, writing an [int] level of at least 1 with
    [microbit_hal_display_set_pixel] and reading the pixel back with
    [microbit_hal_display_get_pixel] gives the level clamped to at most 9;
    writing a level of 0 or less writes raw intensity 0, and reading that
    back computes [32 - __builtin_clz(0)], which has no defined result.
    Hence, on a raw intensity from 1 to 255, reading, writing the level
    read and reading again gives the same level. *)
Theorem set_get_pixel_clamps (x y level : Z) (dev : uBit) :
  (forall (v : Z) (d : uBit), 0 <= v <= 255 ->
     getPixelValue x y (setPixelValue x y v d) = v) ->
  (1 <= level ->
   exists dev',
     microbit_hal_display_set_pixel x y level dev = Some dev' /\
     microbit_hal_display_get_pixel x y dev' = Some (Z.min 9 level)) /\
  (level <= 0 ->
   exists dev',
     microbit_hal_display_set_pixel x y level dev = Some dev' /\
     getPixelValue x y dev' = 0 /\
     microbit_hal_display_get_pixel x y dev' = None) /\
  (1 <= getPixelValue x y dev <= 255 ->
   exists (read : Z) (dev' : uBit),
     microbit_hal_display_get_pixel x y dev = Some read /\
     microbit_hal_display_set_pixel x y read dev = Some dev' /\
     microbit_hal_display_get_pixel x y dev' = Some read).
Proof.
  intros Himage. split; [| split].
  - apply set_get_pixel_clamped. exact Himage.
  - intros Hlevel.
    destruct (set_pixel_clamped x y level dev) as (raw & Hraw & Hset).
    replace (Z.max 0 (Z.min 9 level)) with 0 in Hraw by lia.
    vm_compute in Hraw. injection Hraw as <-.
    eexists. split; [exact Hset |].
    assert (Hback : getPixelValue x y (setPixelValue x y 0 dev) = 0)
      by (apply Himage; lia).
    split; [exact Hback | apply get_pixel_of_zero; exact Hback].
  - intros Hraw.
    destruct (get_pixel_floor x y dev Hraw) as (read & lo & Hread & Hrange & _).
    destruct (set_get_pixel_clamped x y read dev Himage) as [dev' [Hset Hget]]; [lia |].
    exists read, dev'. split; [exact Hread | split; [exact Hset |]].
    rewrite Hget. f_equal. lia.
Qed.

End MoreDisplay.

(** * Pull modes *)

Lemma array_set_bounds {A : Type} (a a' : list A) (i : Z) (v : A) :
  array_set a i v = Some a' ->
  0 <= i < Z.of_nat (length a) /\ a' = <[Z.to_nat i := v]> a.
Proof.
  unfold array_set. case_bool_decide as Hi; [| discriminate].
  intros [= <-]. split; [exact Hi | reflexivity].
Qed.

Lemma array_get_is_Some {A : Type} (a : list A) (i : Z) :
  is_Some (array_get a i) <-> 0 <= i < Z.of_nat (length a).
Proof.
  split.
  - intros [x Hx]. eapply array_get_bounds. exact Hx.
  - intros Hi. unfold array_get. rewrite bool_decide_eq_true_2 by lia.
    apply lookup_lt_is_Some_2. lia.
Qed.

Lemma uint8_wrap_small (z : Z) : 0 <= z < 256 -> uint8_wrap z = z.
Proof. intros Hz. unfold uint8_wrap. change (2 ^ 8) with 256. div_mod_lia. Qed.

Section Pulls.
Context `{HP : CodalPins uBit}.

(** X11: on a pin whose number is inside both [pin_obj] and
    [pin_pull_state], with a pull number from 0 to 2,
    [microbit_hal_pin_set_pull] hands the mapped pull mode to the pin and
    records the number: [microbit_hal_pin_get_pull] then returns it for
    that pin and what it returned before for every other pin, and the touch
    and button cells are untouched. *)
Theorem set_pull_then_get_pull (hal : Hal) (dev : uBit) (pin pull : Z) (p : Pin) :
  array_get pin_obj pin = Some p ->
  pin < Z.of_nat (length (pin_pull_state hal)) ->
  0 <= pull <= 2 ->
  exists (m : PullMode) (hal' : Hal),
    array_get pin_pull_mode_mapping pull = Some m /\
    microbit_hal_pin_set_pull pin pull hal dev = Some (hal', setPull p m dev) /\
    microbit_hal_pin_get_pull pin hal' = Some pull /\
    (forall other : Z, other <> pin ->
       microbit_hal_pin_get_pull other hal' = microbit_hal_pin_get_pull other hal) /\
    touch_state hal' = touch_state hal /\
    button_state hal' = button_state hal.
Proof.
  intros Hp Hpin Hpull.
  pose proof (array_get_bounds _ _ _ Hp) as Hpin0.
  destruct (proj2 (array_get_is_Some pin_pull_mode_mapping pull)) as [m Hm];
    [cbn [pin_pull_mode_mapping length]; lia |].
  destruct (proj2 (array_get_is_Some (pin_pull_state hal) pin)) as [old Hold]; [lia |].
  exists m, (set_pin_pull_state hal (<[Z.to_nat pin := pull]> (pin_pull_state hal))).
  split; [exact Hm | split; [| split; [| split; [| split]]]].
  - unfold microbit_hal_pin_set_pull. rewrite Hp, Hm. cbn [mbind option_bind].
    rewrite (array_set_get _ _ old) by exact Hold.
    rewrite uint8_wrap_small by lia. reflexivity.
  - unfold microbit_hal_pin_get_pull. cbn [set_pin_pull_state pin_pull_state].
    eapply array_get_insert. exact Hold.
  - intros other Hother. unfold microbit_hal_pin_get_pull.
    cbn [set_pin_pull_state pin_pull_state].
    apply array_get_insert_ne; [lia | congruence].
  - reflexivity.
  - reflexivity.
Qed.

(** X12: [pin_obj] has 41 entries and [pin_pull_state] has 38.
    [microbit_hal_pin_set_pull] stays inside its arrays exactly for a pin
    number from 0 to 37 and a pull number from 0 to 2, and
    [microbit_hal_pin_get_pull] exactly for a pin number from 0 to 37: for
    the pins 38, 39 and 40 of [pin_obj] both index [pin_pull_state] out of
    bounds. *)
Theorem pull_state_bounds (hal : Hal) (dev : uBit) (pin pull : Z) :
  length (pin_pull_state hal) = 38%nat ->
  (is_Some (array_get pin_obj pin) <-> 0 <= pin <= 40) /\
  (is_Some (microbit_hal_pin_set_pull pin pull hal dev) <->
   0 <= pin <= 37 /\ 0 <= pull <= 2) /\
  (is_Some (microbit_hal_pin_get_pull pin hal) <-> 0 <= pin <= 37).
Proof.
  intros Hlen. split; [| split].
  - rewrite array_get_is_Some. cbn [pin_obj length]. lia.
  - unfold microbit_hal_pin_set_pull. split.
    + intros [res Hres].
      destruct (array_get pin_obj pin) as [p |] eqn:Hp; [| discriminate].
      destruct (array_get pin_pull_mode_mapping pull) as [m |] eqn:Hm; [| discriminate].
      cbn [mbind option_bind] in Hres.
      destruct (array_set (pin_pull_state hal) pin (uint8_wrap pull)) as [a |] eqn:Ha;
        [| discriminate].
      apply array_set_bounds in Ha as [Ha _]. rewrite Hlen in Ha.
      apply array_get_bounds in Hm. cbn [pin_pull_mode_mapping length] in Hm. lia.
    + intros [Hpin Hpull].
      destruct (proj2 (array_get_is_Some pin_obj pin)) as [p Hp];
        [cbn [pin_obj length]; lia |].
      destruct (proj2 (array_get_is_Some pin_pull_mode_mapping pull)) as [m Hm];
        [cbn [pin_pull_mode_mapping length]; lia |].
      destruct (proj2 (array_get_is_Some (pin_pull_state hal) pin)) as [old Hold];
        [lia |].
      rewrite Hp, Hm. cbn [mbind option_bind].
      rewrite (array_set_get _ _ old) by exact Hold. eauto.
  - unfold microbit_hal_pin_get_pull. rewrite array_get_is_Some, Hlen. lia.
Qed.

End Pulls.

(** * The analog period setter *)

Section AnalogPeriod.
Context `{HC : Codal uBit} `{HP : CodalPins uBit} `{HE : ErrorNo} `{HM : MixerHeader}.

(** X13: [microbit_hal_pin_set_analog_period_us].  On the mixer pin it sets
    the period of the virtual output pin and returns 0 without indexing
    [pin_obj].  On a pin of [pin_obj] it returns 0 or -1; when the pin is in
    analog mode already (its period query does not answer
    [DEVICE_NOT_SUPPORTED]) the analog value is not written and the result
    is 0 exactly when [setAnalogPeriodUs] answers [DEVICE_OK]; when it is
    not and writing the analog value 0 fails, the result is -1 and the
    period is not set; and a result of 0 always means that
    [setAnalogPeriodUs] was called last and answered [DEVICE_OK]. *)
Theorem set_analog_period_outcomes (pin period : Z) (dev : uBit) :
  (pin = MICROBIT_HAL_PIN_MIXER ->
   microbit_hal_pin_set_analog_period_us pin period dev
   = Some (0, virtualOutputPin_setAnalogPeriodUs period dev)) /\
  (pin <> MICROBIT_HAL_PIN_MIXER ->
   forall p : Pin, array_get pin_obj pin = Some p ->
   let cur := int_wrap (getAnalogPeriodUs p dev).1 in
   let d1 := (getAnalogPeriodUs p dev).2 in
   exists (r : Z) (dev' : uBit),
     microbit_hal_pin_set_analog_period_us pin period dev = Some (r, dev') /\
     (r = 0 \/ r = -1) /\
     (cur <> DEVICE_NOT_SUPPORTED ->
      dev' = (setAnalogPeriodUs p period d1).2 /\
      (r = 0 <-> (setAnalogPeriodUs p period d1).1 = DEVICE_OK)) /\
     (cur = DEVICE_NOT_SUPPORTED ->
      (setAnalogValue p 0 d1).1 <> DEVICE_OK ->
      r = -1 /\ dev' = (setAnalogValue p 0 d1).2) /\
     (r = 0 ->
      exists d : uBit,
        (setAnalogPeriodUs p period d).1 = DEVICE_OK /\
        dev' = (setAnalogPeriodUs p period d).2)).
Proof.
  split.
  - intros Hmixer. unfold microbit_hal_pin_set_analog_period_us.
    rewrite bool_decide_eq_true_2 by exact Hmixer. reflexivity.
  - intros Hpin p Hp cur d1. subst cur d1.
    unfold microbit_hal_pin_set_analog_period_us.
    rewrite bool_decide_eq_false_2 by exact Hpin.
    rewrite Hp. cbn [mbind option_bind].
    destruct (getAnalogPeriodUs p dev) as [cur d1]. cbn [fst snd].
    case_bool_decide as Hmode.
    + destruct (setAnalogValue p 0 d1) as [rv d2] eqn:Hvalue. cbn [fst snd].
      case_bool_decide as Hrv.
      * exists (-1), d2. repeat split; try tauto; try lia.
      * destruct (setAnalogPeriodUs p period d2) as [rp d3] eqn:Hperiod.
        case_bool_decide as Hrp.
        -- exists 0, d3. repeat split; try tauto; try lia.
           intros _. exists d2. rewrite Hperiod. split; [exact Hrp | reflexivity].
        -- exists (-1), d3. repeat split; try tauto; try lia.
    + destruct (setAnalogPeriodUs p period d1) as [rp d3] eqn:Hperiod.
      case_bool_decide as Hrp.
      * exists 0, d3. repeat split; try tauto; try lia.
        intros _. exists d1. rewrite Hperiod. split; [exact Hrp | reflexivity].
      * exists (-1), d3. repeat split; try tauto; try lia.
Qed.

(** X20: on a device whose pin reports the period that was set on it with
    success, a call of [microbit_hal_pin_set_analog_period_us] that returns
    0 on a pin of [pin_obj] other than the mixer pin is read back by
    [microbit_hal_pin_get_analog_period_us]: it returns the period that was
    set, for a period that is an [int] other than
    [DEVICE_NOT_SUPPORTED]. *)
Theorem set_then_get_analog_period (pin period : Z) (p : Pin) (dev dev' : uBit) :
  (forall d : uBit,
     (setAnalogPeriodUs p period d).1 = DEVICE_OK ->
     (getAnalogPeriodUs p (setAnalogPeriodUs p period d).2).1 = period) ->
  - 2 ^ 31 <= period < 2 ^ 31 ->
  period <> DEVICE_NOT_SUPPORTED ->
  pin <> MICROBIT_HAL_PIN_MIXER ->
  array_get pin_obj pin = Some p ->
  microbit_hal_pin_set_analog_period_us pin period dev = Some (0, dev') ->
  microbit_hal_pin_get_analog_period_us pin dev'
  = Some (period, (getAnalogPeriodUs p dev').2).
Proof.
  intros Hlaw Hint Hcode Hpin Hp Hset.
  assert (Hlast : exists d : uBit,
             (setAnalogPeriodUs p period d).1 = DEVICE_OK /\
             dev' = (setAnalogPeriodUs p period d).2).
  { revert Hset. unfold microbit_hal_pin_set_analog_period_us.
    rewrite bool_decide_eq_false_2 by exact Hpin.
    rewrite Hp. cbn [mbind option_bind].
    destruct (getAnalogPeriodUs p dev) as [cur d1].
    case_bool_decide as Hmode.
    - destruct (setAnalogValue p 0 d1) as [rv d2].
      case_bool_decide as Hrv; [intros Heq; discriminate Heq |].
      destruct (setAnalogPeriodUs p period d2) as [rp d3] eqn:Hperiod.
      case_bool_decide as Hrp; intros Heq; [| discriminate Heq].
      injection Heq as Hd.
      exists d2. rewrite Hperiod. split; [exact Hrp | symmetry; exact Hd].
    - destruct (setAnalogPeriodUs p period d1) as [rp d3] eqn:Hperiod.
      case_bool_decide as Hrp; intros Heq; [| discriminate Heq].
      injection Heq as Hd.
      exists d1. rewrite Hperiod. split; [exact Hrp | symmetry; exact Hd]. }
  destruct Hlast as (d & Hok & ->).
  unfold microbit_hal_pin_get_analog_period_us. rewrite Hp. cbn [mbind option_bind].
  pose proof (Hlaw d Hok) as Hback.
  destruct (getAnalogPeriodUs p (setAnalogPeriodUs p period d).2) as [raw d4].
  cbn [fst snd] in *. subst raw.
  rewrite int_wrap_int by exact Hint.
  rewrite bool_decide_eq_true_2 by exact Hcode. reflexivity.
Qed.

End AnalogPeriod.

(** * Wake sources *)

(** A counting loop over a whole table visits its entries in order, and
    never leaves the table. *)
Lemma for_each_index_table {uBit A : Type} (op : A -> uBit -> uBit)
    (pre suf : list A) :
  forall dev : uBit,
  for_each_index
    (fun i d => x ← array_get (pre ++ suf) i; Some (op x d))
    (Z.of_nat (length pre)) (length suf) dev
  = Some (foldl (fun d x => op x d) dev suf).
Proof.
  revert pre. induction suf as [| x suf IH]; intros pre dev; [reflexivity |].
  cbn [for_each_index length foldl].
  assert (Hget : array_get (pre ++ x :: suf) (Z.of_nat (length pre)) = Some x).
  { unfold array_get. rewrite bool_decide_eq_true_2 by lia.
    rewrite Nat2Z.id. apply list_lookup_middle. reflexivity. }
  rewrite Hget. cbn [mbind option_bind].
  specialize (IH (pre ++ [x]) (op x dev)).
  rewrite <- app_assoc in IH. cbn [app] in IH.
  rewrite length_app in IH. cbn [length] in IH.
  replace (Z.of_nat (length pre) + 1) with (Z.of_nat (length pre + 1)) by lia.
  exact IH.
Qed.

Lemma every_pin_in_pin_obj (p : Pin) : p ∈ pin_obj.
Proof. apply list_elem_of_In. destruct p; cbn; tauto. Qed.

Lemma every_button_in_button_obj (b : Button) : b ∈ button_obj.
Proof. apply list_elem_of_In. destruct b; cbn; tauto. Qed.

Section WakeSources.
Context `{HW : CodalPower uBit}.

Lemma clear_wake_sources_folds (dev : uBit) :
  microbit_hal_power_clear_wake_sources dev
  = Some (foldl (fun d b => button_wakeOnActive b false d)
            (foldl (fun d p => pin_wakeOnActive p false d) dev pin_obj)
            button_obj).
Proof.
  unfold microbit_hal_power_clear_wake_sources, microbit_hal_power_wake_on_pin,
    microbit_hal_power_wake_on_button.
  rewrite (for_each_index_table (fun p => pin_wakeOnActive p false) [] pin_obj dev).
  cbn [mbind option_bind].
  apply (for_each_index_table (fun b => button_wakeOnActive b false) [] button_obj).
Qed.

Variable pin_armed : Pin -> uBit -> bool.
Variable button_armed : Button -> uBit -> bool.

Hypothesis pin_armed_own :
  forall p v d, pin_armed p (pin_wakeOnActive p v d) = v.
Hypothesis pin_armed_other :
  forall p q v d, p <> q -> pin_armed q (pin_wakeOnActive p v d) = pin_armed q d.
Hypothesis pin_armed_button :
  forall b q v d, pin_armed q (button_wakeOnActive b v d) = pin_armed q d.
Hypothesis button_armed_own :
  forall b v d, button_armed b (button_wakeOnActive b v d) = v.
Hypothesis button_armed_other :
  forall b c v d, b <> c -> button_armed c (button_wakeOnActive b v d) = button_armed c d.

Lemma disarm_pins (l : list Pin) (q : Pin) :
  forall d : uBit,
  pin_armed q (foldl (fun d p => pin_wakeOnActive p false d) d l)
  = if bool_decide (q ∈ l) then false else pin_armed q d.
Proof.
  induction l as [| p l IH]; intros d; cbn [foldl].
  - rewrite bool_decide_eq_false_2 by apply not_elem_of_nil. reflexivity.
  - rewrite IH. destruct (decide (q ∈ l)) as [Hin | Hout].
    + rewrite !bool_decide_eq_true_2 by (rewrite ?elem_of_cons; tauto). reflexivity.
    + rewrite (bool_decide_eq_false_2 (q ∈ l)) by exact Hout.
      destruct (decide (p = q)) as [-> | Hne].
      * rewrite bool_decide_eq_true_2 by (rewrite elem_of_cons; tauto).
        apply pin_armed_own.
      * rewrite bool_decide_eq_false_2
          by (rewrite elem_of_cons; intros [Heq | Hin]; [congruence | tauto]).
        apply pin_armed_other. exact Hne.
Qed.

Lemma disarm_buttons (l : list Button) (c : Button) :
  forall d : uBit,
  button_armed c (foldl (fun d b => button_wakeOnActive b false d) d l)
  = if bool_decide (c ∈ l) then false else button_armed c d.
Proof.
  induction l as [| b l IH]; intros d; cbn [foldl].
  - rewrite bool_decide_eq_false_2 by apply not_elem_of_nil. reflexivity.
  - rewrite IH. destruct (decide (c ∈ l)) as [Hin | Hout].
    + rewrite !bool_decide_eq_true_2 by (rewrite ?elem_of_cons; tauto). reflexivity.
    + rewrite (bool_decide_eq_false_2 (c ∈ l)) by exact Hout.
      destruct (decide (b = c)) as [-> | Hne].
      * rewrite bool_decide_eq_true_2 by (rewrite elem_of_cons; tauto).
        apply button_armed_own.
      * rewrite bool_decide_eq_false_2
          by (rewrite elem_of_cons; intros [Heq | Hin]; [congruence | tauto]).
        apply button_armed_other. exact Hne.
Qed.

Lemma buttons_keep_pins (l : list Button) (q : Pin) :
  forall d : uBit,
  pin_armed q (foldl (fun d b => button_wakeOnActive b false d) d l) = pin_armed q d.
Proof.
  induction l as [| b l IH]; intros d; cbn [foldl]; [reflexivity |].
  rewrite IH. apply pin_armed_button.
Qed.

(** X14: [microbit_hal_power_clear_wake_sources] stays inside [pin_obj]
    and [button_obj] and disarms every wake source: for a device on which
    arming or disarming one pin or button sets the state of that source and
    of no other pin or button, every pin and every button is disarmed after
    the call. *)
Theorem clear_wake_sources_disarms_all (dev : uBit) :
  exists dev' : uBit,
    microbit_hal_power_clear_wake_sources dev = Some dev' /\
    (forall p : Pin, pin_armed p dev' = false) /\
    (forall b : Button, button_armed b dev' = false).
Proof.
  eexists. split; [apply clear_wake_sources_folds | split].
  - intros p. rewrite buttons_keep_pins, disarm_pins.
    rewrite bool_decide_eq_true_2 by apply every_pin_in_pin_obj. reflexivity.
  - intros b. rewrite disarm_buttons.
    rewrite bool_decide_eq_true_2 by apply every_button_in_button_obj. reflexivity.
Qed.

End WakeSources.

(** * Bus initialisers *)

Section Buses.
Context `{HB : CodalBus uBit} `{HE : ErrorNo}.

(** X15: with [DEVICE_OK] being 0, [microbit_hal_i2c_init] on pins of
    [pin_obj] redirects the bus (SDA pin first) and then sets the
    frequency; it returns the code of the first step that does not answer
    [DEVICE_OK], and 0 exactly when both steps answer [DEVICE_OK].  When
    the redirection fails the frequency is not set. *)
Theorem i2c_init_first_failure (scl sda freq : Z) (pscl psda : Pin) (dev : uBit) :
  DEVICE_OK = 0 ->
  array_get pin_obj scl = Some pscl ->
  array_get pin_obj sda = Some psda ->
  let step1 := i2c_redirect psda pscl dev in
  let step2 := i2c_setFrequency freq step1.2 in
  exists (r : Z) (dev' : uBit),
    microbit_hal_i2c_init scl sda freq dev = Some (r, dev') /\
    (step1.1 <> DEVICE_OK -> r = step1.1 /\ dev' = step1.2) /\
    (step1.1 = DEVICE_OK -> r = step2.1 /\ dev' = step2.2) /\
    (r = 0 <-> step1.1 = DEVICE_OK /\ step2.1 = DEVICE_OK).
Proof.
  intros Hok Hscl Hsda step1 step2. subst step1 step2.
  unfold microbit_hal_i2c_init. rewrite Hsda, Hscl. cbn [mbind option_bind].
  destruct (i2c_redirect psda pscl dev) as [c1 d1]. cbn [fst snd].
  case_bool_decide as H1.
  - exists c1, d1. repeat split; try tauto; try congruence.
  - destruct (i2c_setFrequency freq d1) as [c2 d2]. cbn [fst snd].
    case_bool_decide as H2.
    + exists c2, d2. repeat split; try tauto; try congruence.
    + exists 0, d2. repeat split; try tauto; try congruence.
Qed.

(** X16: with [DEVICE_OK] being 0, [microbit_hal_uart_init] on pins of
    [pin_obj] redirects the serial port (TX pin first) and then sets the
    baud rate; it returns the code of the first step that does not answer
    [DEVICE_OK], and 0 exactly when both answer [DEVICE_OK].  The bits,
    parity and stop arguments reach no device call: the result is the same
    for any other values of them. *)
Theorem uart_init_first_failure (tx rx baudrate bits parity stop : Z)
    (ptx prx : Pin) (dev : uBit) :
  DEVICE_OK = 0 ->
  array_get pin_obj tx = Some ptx ->
  array_get pin_obj rx = Some prx ->
  let step1 := serial_redirect ptx prx dev in
  let step2 := serial_setBaud baudrate step1.2 in
  (exists (r : Z) (dev' : uBit),
     microbit_hal_uart_init tx rx baudrate bits parity stop dev = Some (r, dev') /\
     (step1.1 <> DEVICE_OK -> r = step1.1 /\ dev' = step1.2) /\
     (step1.1 = DEVICE_OK -> r = step2.1 /\ dev' = step2.2) /\
     (r = 0 <-> step1.1 = DEVICE_OK /\ step2.1 = DEVICE_OK)) /\
  (forall bits' parity' stop' : Z,
     microbit_hal_uart_init tx rx baudrate bits' parity' stop' dev
     = microbit_hal_uart_init tx rx baudrate bits parity stop dev).
Proof.
  intros Hok Htx Hrx step1 step2. subst step1 step2. split; [| reflexivity].
  unfold microbit_hal_uart_init. rewrite Htx, Hrx. cbn [mbind option_bind].
  destruct (serial_redirect ptx prx dev) as [c1 d1]. cbn [fst snd].
  case_bool_decide as H1.
  - exists c1, d1. repeat split; try tauto; try congruence.
  - destruct (serial_setBaud baudrate d1) as [c2 d2]. cbn [fst snd].
    case_bool_decide as H2.
    + exists c2, d2. repeat split; try tauto; try congruence.
    + exists 0, d2. repeat split; try tauto; try congruence.
Qed.

End Buses.

Section SpiObject.
Context `{HS : CodalSpi uBit Spi} `{HE : ErrorNo}.

(** X17: after a call of [microbit_hal_spi_init] on pins of [pin_obj] the
    static pointer [spi] is not null, whatever code the call returns: a
    null pointer is replaced by a new object and an object that exists is
    kept.  [microbit_hal_spi_transfer] is defined for the pointer the call
    leaves, and dereferences a null pointer when no call went before. *)
Theorem spi_init_creates_object (sclk mosi miso frequency bits mode : Z)
    (psclk pmosi pmiso : Pin) (spi : option Spi) (dev : uBit) :
  array_get pin_obj sclk = Some psclk ->
  array_get pin_obj mosi = Some pmosi ->
  array_get pin_obj miso = Some pmiso ->
  exists (r : Z) (s : Spi) (dev' : uBit),
    microbit_hal_spi_init sclk mosi miso frequency bits mode spi dev
    = Some (r, Some s, dev') /\
    (forall s0 : Spi, spi = Some s0 -> s = s0) /\
    (spi = None -> s = (spi_new pmosi pmiso psclk dev).1) /\
    (forall (len : Z) (src : list Z) (dest : option (list Z)) (d : uBit),
       is_Some (microbit_hal_spi_transfer len src dest (Some s) d) /\
       microbit_hal_spi_transfer len src dest None d = None).
Proof.
  intros Hsclk Hmosi Hmiso.
  assert (Htransfer : forall (s : Spi) (len : Z) (src : list Z)
                             (dest : option (list Z)) (d : uBit),
             is_Some (microbit_hal_spi_transfer len src dest (Some s) d) /\
             microbit_hal_spi_transfer len src dest None d = None).
  { intros s len src dest d. split; [| reflexivity].
    unfold microbit_hal_spi_transfer. destruct dest; cbn; eauto. }
  unfold microbit_hal_spi_init. rewrite Hmosi, Hmiso, Hsclk. cbn [mbind option_bind].
  destruct spi as [s0 |].
  - destruct (spi_redirect s0 pmosi pmiso psclk dev) as [c0 d0].
    case_bool_decide.
    + exists c0, s0, d0. repeat split; try congruence; apply Htransfer.
    + destruct (spi_setFrequency s0 frequency d0) as [c1 d1].
      case_bool_decide.
      * exists c1, s0, d1. repeat split; try congruence; apply Htransfer.
      * destruct (spi_setMode s0 mode bits d1) as [c2 d2].
        case_bool_decide; eexists _, s0, _;
          repeat split; try congruence; apply Htransfer.
  - destruct (spi_new pmosi pmiso psclk dev) as [s d0]. cbn [fst].
    destruct (spi_setFrequency s frequency d0) as [c1 d1].
    case_bool_decide.
    + exists c1, s, d1. repeat split; try congruence; apply Htransfer.
    + destruct (spi_setMode s mode bits d1) as [c2 d2].
      case_bool_decide; eexists _, s, _;
        repeat split; try congruence; apply Htransfer.
Qed.

End SpiObject.

(** * The random word *)

Lemma random_word_of_halves (hi lo : Z) :
  0 <= hi < 65536 -> 0 <= lo < 65536 ->
  random_word_of hi lo = hi * 65536 + lo.
Proof.
  intros Hhi Hlo. unfold random_word_of.
  assert (Hbits : uint32_wrap (Z.lor (int_wrap (Z.shiftl hi 16)) lo)
                  = uint32_wrap (Z.lor (Z.shiftl hi 16) lo)).
  { unfold uint32_wrap, int_wrap. apply Z.bits_inj'. intros i Hi.
    destruct (Z.lt_ge_cases i 32) as [Hlow | Hhigh].
    - rewrite !Z.mod_pow2_bits_low, !Z.lor_spec by lia.
      f_equal.
      replace ((Z.shiftl hi 16 + 2 ^ 31) `mod` 2 ^ 32 - 2 ^ 31)
        with (Z.shiftl hi 16 + 2 ^ 32 * (- ((Z.shiftl hi 16 + 2 ^ 31) `div` 2 ^ 32)))
        by (pose proof (Z.div_mod (Z.shiftl hi 16 + 2 ^ 31) (2 ^ 32)); lia).
      rewrite <- (Z.mod_pow2_bits_low _ 32 i) by lia.
      rewrite Z.mul_comm, Z_mod_plus_full.
      apply Z.mod_pow2_bits_low. lia.
    - rewrite !Z.mod_pow2_bits_high by lia. reflexivity. }
  rewrite Hbits. clear Hbits.
  rewrite Z.shiftl_mul_pow2 by lia. change (2 ^ 16) with 65536.
  assert (Hdisjoint : Z.land (hi * 65536) lo = 0).
  { apply Z.bits_inj'. intros i Hi. rewrite Z.land_spec, Z.bits_0.
    destruct (Z.lt_ge_cases i 16) as [Hlow | Hhigh].
    - change 65536 with (2 ^ 16). rewrite Z.mul_pow2_bits_low by lia. reflexivity.
    - rewrite (Z.bits_above_log2 lo i); [apply andb_false_r | lia |].
      destruct (Z.eq_dec lo 0) as [-> | Hne]; [cbn; lia |].
      assert (Z.log2 lo < 16) by (apply Z.log2_lt_pow2; lia). lia. }
  rewrite <- Z.add_nocarry_lor by exact Hdisjoint.
  unwrap. div_mod_lia.
Qed.

Section RandomWord.
Context `{HR : CodalRandom uBit}.

(** X18: when both draws of [uBit.random(65536)] lie in 0..65535,
    [rng_generate_random_word] returns the word whose upper 16 bits are the
    draw that is shifted and whose lower 16 bits are the other draw,
    whichever of the two is drawn first; the word is below [2^32] and both
    draws can be read back from it. *)
Theorem random_word_halves (left_first : bool) (dev : uBit) :
  let first := random 65536 dev in
  let second := random 65536 first.2 in
  let hi := if left_first then first.1 else second.1 in
  let lo := if left_first then second.1 else first.1 in
  0 <= first.1 < 65536 ->
  0 <= second.1 < 65536 ->
  let word := (rng_generate_random_word left_first dev).1 in
  word = hi * 65536 + lo /\
  0 <= word < 2 ^ 32 /\
  Z.shiftr word 16 = hi /\
  Z.land word 65535 = lo /\
  (rng_generate_random_word left_first dev).2 = second.2.
Proof.
  intros first second hi lo Hfirst Hsecond word.
  subst first second hi lo word.
  unfold rng_generate_random_word.
  destruct (random 65536 dev) as [a d1]. cbn [fst snd] in *.
  destruct (random 65536 d1) as [b d2]. cbn [fst snd] in *.
  assert (Hshift : forall hi lo, 0 <= hi < 65536 -> 0 <= lo < 65536 ->
            0 <= hi * 65536 + lo < 2 ^ 32 /\
            Z.shiftr (hi * 65536 + lo) 16 = hi /\
            Z.land (hi * 65536 + lo) 65535 = lo).
  { intros hi lo Hhi Hlo. rewrite Z.shiftr_div_pow2 by lia.
    change 65535 with (Z.ones 16). rewrite Z.land_ones by lia.
    change (2 ^ 16) with 65536. change (2 ^ 32) with 4294967296.
    repeat split; div_mod_lia. }
  destruct left_first; cbn [fst snd];
    rewrite random_word_of_halves by assumption;
    (split; [reflexivity |]);
    (split; [apply Hshift; assumption |]);
    (split; [apply Hshift; assumption |]);
    (split; [apply Hshift; assumption | reflexivity]).
Qed.

End RandomWord.

(** * The log codes, read backwards *)

Section LogCodes.
Context `{HC : Codal uBit} `{HE : ErrorNo} `{HH : HalHeader}.

Lemma convert_return_value_decodes (result : Z) :
  DEVICE_OK <> DEVICE_NO_RESOURCES ->
  MICROBIT_HAL_DEVICE_OK <> MICROBIT_HAL_DEVICE_NO_RESOURCES ->
  MICROBIT_HAL_DEVICE_OK <> MICROBIT_HAL_DEVICE_ERROR ->
  MICROBIT_HAL_DEVICE_NO_RESOURCES <> MICROBIT_HAL_DEVICE_ERROR ->
  (microbit_hal_log_convert_return_value result = MICROBIT_HAL_DEVICE_OK
   <-> result = DEVICE_OK) /\
  (microbit_hal_log_convert_return_value result = MICROBIT_HAL_DEVICE_NO_RESOURCES
   <-> result = DEVICE_NO_RESOURCES) /\
  (microbit_hal_log_convert_return_value result = MICROBIT_HAL_DEVICE_ERROR
   <-> result <> DEVICE_OK /\ result <> DEVICE_NO_RESOURCES).
Proof.
  intros Hdev H1 H2 H3. unfold microbit_hal_log_convert_return_value.
  repeat case_bool_decide; repeat split; intros; try tauto; try congruence.
  all: destruct_and?; congruence.
Qed.

(** X19: when the three result codes of [microbithal.h] differ from one
    another and [DEVICE_OK] differs from [DEVICE_NO_RESOURCES], the result
    of a log operation tells the caller what the device answered:
    [MICROBIT_HAL_DEVICE_OK] is returned only when the device answered
    [DEVICE_OK], [MICROBIT_HAL_DEVICE_NO_RESOURCES] only when it answered
    [DEVICE_NO_RESOURCES], and [MICROBIT_HAL_DEVICE_ERROR] only when it
    answered another code.  Shown for [microbit_hal_log_begin_row],
    [microbit_hal_log_end_row] and [microbit_hal_log_data]; each leaves the
    device as the device operation left it. *)
Theorem log_result_decodes (dev : uBit) (key value : string) :
  DEVICE_OK <> DEVICE_NO_RESOURCES ->
  MICROBIT_HAL_DEVICE_OK <> MICROBIT_HAL_DEVICE_NO_RESOURCES ->
  MICROBIT_HAL_DEVICE_OK <> MICROBIT_HAL_DEVICE_ERROR ->
  MICROBIT_HAL_DEVICE_NO_RESOURCES <> MICROBIT_HAL_DEVICE_ERROR ->
  Forall (fun '(device, shim) =>
            shim.2 = device.2 /\
            (shim.1 = MICROBIT_HAL_DEVICE_OK <-> device.1 = DEVICE_OK) /\
            (shim.1 = MICROBIT_HAL_DEVICE_NO_RESOURCES
             <-> device.1 = DEVICE_NO_RESOURCES) /\
            (shim.1 = MICROBIT_HAL_DEVICE_ERROR
             <-> device.1 <> DEVICE_OK /\ device.1 <> DEVICE_NO_RESOURCES))
    [ (beginRow dev, microbit_hal_log_begin_row dev);
      (endRow dev, microbit_hal_log_end_row dev);
      (logData key value dev, microbit_hal_log_data key value dev) ].
Proof.
  intros Hdev H1 H2 H3.
  unfold microbit_hal_log_begin_row, microbit_hal_log_end_row, microbit_hal_log_data.
  destruct (beginRow dev) as [r1 d1], (endRow dev) as [r2 d2],
    (logData key value dev) as [r3 d3].
  repeat (apply List.Forall_cons;
          [cbn [fst snd]; split;
           [reflexivity | apply convert_return_value_decodes; assumption] |]).
  apply List.Forall_nil.
Qed.

End LogCodes.

(** * The further properties on concrete inputs *)

(** Button A with three presses pending and the flag set, three more
    reported: the poll for both outputs stores 0. *)
Lemma poll_both_always_clears_witness :
  exists res,
    microbit_hal_button_state 0 (Some 0) (Some 0)
      (set_button_state hal_init [7; 0]) (script [3] 1 0 0) = Some res /\
    array_get (button_state (hal_after res)) 0 = Some 0.
Proof.
  exact (proj2 (poll_both_always_clears (HH := port_header)
                  (set_button_state hal_init [7; 0]) (script [3] 1 0 0) 0 0 7)
           0 buttonA eq_refl eq_refl).
Defined.

(** Button A with 32767 presses pending and two more reported: the count
    handed out is 1. *)
Lemma poll_count_modulo_witness :
  0 <= 65534 < 65536 /\
  exists res,
    microbit_hal_button_state 0 None (Some 0)
      (set_button_state hal_init [65534; 0]) (script [2] 1 0 0) = Some res /\
    num_out res = Some ((65534 `div` 2 + 2) `mod` 32768) /\
    (65534 `div` 2 + 2) `mod` 32768 = 1.
Proof.
  split; [lia |].
  destruct (proj2 (poll_count_modulo (HH := port_header)
                     (set_button_state hal_init [65534; 0]) (script [2] 1 0 0)
                     None 0 65534 ltac:(lia))
              0 buttonA eq_refl eq_refl) as [res [Hres Hnum]].
  exists res. split; [exact Hres | split; [exact Hnum | reflexivity]].
Defined.

(** The logo pin with the flag clear and an edge count of -1 reported: the
    flag handed out is 1. *)
Lemma poll_flag_value_witness :
  exists res,
    microbit_hal_pin_touch_state (HH := port_header) 19 (Some 0) None
      hal_init (script [-1] 0 0 0) = Some res /\
    was_out res = Some 1.
Proof.
  exact (proj1 (poll_flag_value (HH := port_header)
                  hal_init (script [-1] 0 0 0) 0 None 0)
           19 logo eq_refl eq_refl).
Defined.

(** Button B pressed three times, the count read twice. *)
Lemma count_read_self_clearing_witness :
  exists res1 res2,
    microbit_hal_button_state 1 None (Some 0) hal_init (script [3] 1 0 0)
    = Some res1 /\
    num_out res1 = Some 3 /\
    microbit_hal_button_state 1 None (Some 0) (hal_after res1) (dev_after res1)
    = Some res2 /\
    num_out res2 = Some 0.
Proof.
  pose (dev := script [3] 1 0 0).
  let r := eval vm_compute in (microbit_hal_button_state 1 None (Some 0) hal_init dev) in
  lazymatch r with
  | Some ?x => pose (res1 := x)
  end.
  assert (Hres1 : microbit_hal_button_state 1 None (Some 0) hal_init dev = Some res1)
    by (vm_compute; reflexivity).
  destruct (proj2 (count_read_self_clearing (HH := port_header)
                     hal_init dev 0 0 None None res1)
              1 buttonB eq_refl Hres1 eq_refl)
    as [res2 [Hres2 Hnum2]].
  exists res1, res2.
  split; [exact Hres1 | split; [reflexivity | split; [exact Hres2 | exact Hnum2]]].
Defined.

(** A poll of button A leaves the cell of button B as it was. *)
Lemma poll_frame_witness :
  exists res,
    microbit_hal_button_state 0 (Some 0) None
      (set_button_state hal_init [0; 9]) (script [3] 1 0 0) = Some res /\
    array_get (button_state (hal_after res)) 1 = Some 9 /\
    touch_state (hal_after res) = [0; 0; 0; 0].
Proof.
  pose (hal := set_button_state hal_init [0; 9]).
  pose (dev := script [3] 1 0 0).
  let r := eval vm_compute in (microbit_hal_button_state 0 (Some 0) None hal dev) in
  lazymatch r with
  | Some ?x => pose (res := x)
  end.
  assert (Hres : microbit_hal_button_state 0 (Some 0) None hal dev = Some res)
    by (vm_compute; reflexivity).
  destruct (proj2 (poll_frame (HH := port_header) hal dev (Some 0) None res) 0 Hres)
    as (_ & Htouch & _ & Hother).
  exists res. split; [exact Hres | split].
  - rewrite (Hother 1) by lia. reflexivity.
  - rewrite Htouch. reflexivity.
Defined.

(** The logo pin is inside [touch_state]; so is pin 3. *)
Lemma touch_poll_bounds_witness :
  length (touch_state hal_init) = 4%nat /\
  is_Some (microbit_hal_pin_touch_state (HH := port_header) 19 (Some 0) None
             hal_init (script [] 0 0 0)) /\
  is_Some (microbit_hal_pin_touch_state (HH := port_header) 3 (Some 0) None
             hal_init (script [] 0 0 0)).
Proof.
  split; [reflexivity | split].
  - apply (touch_poll_bounds (HH := port_header) hal_init (script [] 0 0 0) 19 logo
             (Some 0) None eq_refl eq_refl (or_introl (ex_intro _ 0 eq_refl))).
    left. reflexivity.
  - apply (touch_poll_bounds (HH := port_header) hal_init (script [] 0 0 0) 3 P3
             (Some 0) None eq_refl eq_refl (or_introl (ex_intro _ 0 eq_refl))).
    right. lia.
Defined.

(** Button A: batches of 1, 2 and 3 presses over three flag-only polls. *)
Lemma flag_polls_accumulate_witness :
  sum_batches [1; 2; 3] <= 32767 /\
  exists hal' dev' res,
    button_flag_polls 0 3 hal_init (script [1; 2; 3] 1 0 0) = Some (hal', dev') /\
    microbit_hal_button_state 0 None (Some 0) hal' dev' = Some res /\
    num_out res = Some (sum_batches [1; 2; 3]).
Proof.
  assert (Hsum : sum_batches [1; 2; 3] <= 32767) by (cbn; lia).
  split; [exact Hsum |].
  apply (proj2 (flag_polls_accumulate (HH := port_header) [1; 2; 3] hal_init
                  (script [1; 2; 3] 1 0 0) 0 None
                  ltac:(repeat constructor; lia) Hsum)
           0 buttonA eq_refl eq_refl).
  - intros i t Hi.
    destruct i as [| [| [| i]]]; cbn in Hi; try discriminate;
      injection Hi as <-; reflexivity.
  - reflexivity.
Defined.

(** The image answers -1001 for the pixel. *)
Lemma get_pixel_of_error_code_witness :
  - 2 ^ 31 <= getPixelValue 7 7 (flat_image (-1001)) < 0 /\
  microbit_hal_display_get_pixel 7 7 (flat_image (-1001)) = Some 32.
Proof.
  assert (Hneg : - 2 ^ 31 <= getPixelValue 7 7 (flat_image (-1001)) < 0) by (cbn; lia).
  split; [exact Hneg |].
  exact (get_pixel_of_error_code 7 7 (flat_image (-1001)) Hneg).
Defined.

(** Raw intensity 100 lies between the entries 64 and 128 of levels 7
    and 8. *)
Lemma get_pixel_floors_into_table_witness :
  1 <= getPixelValue 0 0 (flat_image 100) <= 255 /\
  microbit_hal_display_get_pixel 0 0 (flat_image 100) = Some 7 /\
  exists level lo : Z,
    microbit_hal_display_get_pixel 0 0 (flat_image 100) = Some level /\
    array_get bright_map level = Some lo /\
    lo <= 100.
Proof.
  assert (Hraw : 1 <= getPixelValue 0 0 (flat_image 100) <= 255) by (cbn; lia).
  split; [exact Hraw | split; [reflexivity |]].
  destruct (proj1 (get_pixel_floors_into_table 0 0 (flat_image 100)) Hraw)
    as (level & lo & Hlevel & _ & Hlo & Hle & _).
  exists level, lo. split; [exact Hlevel | split; [exact Hlo | exact Hle]].
Defined.

Lemma script_image_reads_back (x y v : Z) (d : Script) :
  getPixelValue x y (setPixelValue x y v d) = v.
Proof. cbn. rewrite bool_decide_eq_true_2; [reflexivity | split; reflexivity]. Qed.

(** Level 12 written at pixel (4, 0) reads back as 9. *)
Lemma set_get_pixel_clamps_witness :
  exists dev',
    microbit_hal_display_set_pixel 4 0 12 (script [] 0 0 0) = Some dev' /\
    microbit_hal_display_get_pixel 4 0 dev' = Some 9.
Proof.
  exact (proj1 (set_get_pixel_clamps 4 0 12 (script [] 0 0 0)
                  (fun v d _ => script_image_reads_back 4 0 v d))
           ltac:(lia)).
Defined.

(** Pin 5 set to pull number 1 (pull-down). *)
Lemma set_pull_then_get_pull_witness :
  array_get pin_obj 5 = Some P5 /\
  exists (m : PullMode) (hal' : Hal),
    array_get pin_pull_mode_mapping 1 = Some m /\
    microbit_hal_pin_set_pull 5 1 hal_init (script [] 0 0 0)
    = Some (hal', setPull P5 m (script [] 0 0 0)) /\
    microbit_hal_pin_get_pull 5 hal' = Some 1.
Proof.
  split; [reflexivity |].
  destruct (set_pull_then_get_pull hal_init (script [] 0 0 0) 5 1 P5
              eq_refl ltac:(cbn; lia) ltac:(lia))
    as (m & hal' & Hm & Hset & Hget & _).
  exists m, hal'. split; [exact Hm | split; [exact Hset | exact Hget]].
Defined.

(** Pin 38 is the entry [M_B_IN1] of [pin_obj], and outside
    [pin_pull_state]. *)
Lemma pull_state_bounds_witness :
  length (pin_pull_state hal_init) = 38%nat /\
  array_get pin_obj 38 = Some M_B_IN1 /\
  microbit_hal_pin_set_pull 38 1 hal_init (script [] 0 0 0) = None /\
  microbit_hal_pin_get_pull 38 hal_init = None.
Proof.
  destruct (pull_state_bounds hal_init (script [] 0 0 0) 38 1 eq_refl)
    as (_ & Hset & Hget).
  split; [reflexivity | split; [reflexivity | split]].
  - destruct (microbit_hal_pin_set_pull 38 1 hal_init (script [] 0 0 0)) as [res |];
      [| reflexivity].
    exfalso. destruct (proj1 Hset (ex_intro _ res eq_refl)) as [Hpin _]. lia.
  - destruct (microbit_hal_pin_get_pull 38 hal_init) as [res |]; [| reflexivity].
    exfalso. pose proof (proj1 Hget (ex_intro _ res eq_refl)) as Hpin. lia.
Defined.

(** Pin 0 not yet in analog mode (the period query answers
    [DEVICE_NOT_SUPPORTED]) on a device whose pin operations succeed: the
    period is set and 0 returned. *)
Lemma set_analog_period_outcomes_witness :
  exists (r : Z) (dev' : Script),
    microbit_hal_pin_set_analog_period_us (HE := codal_errno) (HM := run_mixer)
      0 20000 (script [] 0 (-1002) 0) = Some (r, dev') /\
    r = 0 /\
    period dev' = 20000.
Proof.
  destruct (proj2 (set_analog_period_outcomes (HE := codal_errno) (HM := run_mixer)
                     0 20000 (script [] 0 (-1002) 0))
              ltac:(cbn; lia) P0 eq_refl)
    as (r & dev' & Hres & _ & _ & _ & Hok).
  exists r, dev'.
  assert (Hr : r = 0) by (vm_compute in Hres; congruence).
  split; [exact Hres | split; [exact Hr |]].
  vm_compute in Hres. injection Hres as _ <-. reflexivity.
Defined.

Lemma wake_update_own {A : Type} `{EqDecision A} (x : A) (on : bool) (l : list A) :
  bool_decide (x ∈ wake_update x on l) = on.
Proof.
  unfold wake_update. destruct on.
  - apply bool_decide_eq_true_2. apply elem_of_cons. left. reflexivity.
  - apply bool_decide_eq_false_2. rewrite list_elem_of_filter. tauto.
Qed.

Lemma wake_update_other {A : Type} `{EqDecision A} (x y : A) (on : bool) (l : list A) :
  x <> y -> bool_decide (y ∈ wake_update x on l) = bool_decide (y ∈ l).
Proof.
  intros Hne. unfold wake_update. apply bool_decide_ext. destruct on.
  - rewrite elem_of_cons. split; [intros [Heq | Hin]; [congruence | exact Hin] | tauto].
  - rewrite list_elem_of_filter. split; [tauto | intros Hin; split; [congruence | exact Hin]].
Qed.

Lemma wake_pin_own (p : Pin) (v : bool) (d : Wake) :
  wake_pin_armed p (pin_wakeOnActive p v d) = v.
Proof. apply wake_update_own. Qed.

Lemma wake_pin_other (p q : Pin) (v : bool) (d : Wake) :
  p <> q -> wake_pin_armed q (pin_wakeOnActive p v d) = wake_pin_armed q d.
Proof. apply wake_update_other. Qed.

Lemma wake_button_own (b : Button) (v : bool) (d : Wake) :
  wake_button_armed b (button_wakeOnActive b v d) = v.
Proof. apply wake_update_own. Qed.

Lemma wake_button_other (b c : Button) (v : bool) (d : Wake) :
  b <> c -> wake_button_armed c (button_wakeOnActive b v d) = wake_button_armed c d.
Proof. apply wake_update_other. Qed.

(** Pin 1, the logo pin and button B armed: all disarmed by the call. *)
Lemma clear_wake_sources_disarms_all_witness :
  exists dev' : Wake,
    microbit_hal_power_clear_wake_sources
      {| armed_pins := [P1; logo]; armed_buttons := [buttonB] |} = Some dev' /\
    wake_pin_armed logo dev' = false /\
    wake_button_armed buttonB dev' = false.
Proof.
  destruct (clear_wake_sources_disarms_all wake_pin_armed wake_button_armed
              wake_pin_own wake_pin_other (fun b q v d => eq_refl)
              wake_button_own wake_button_other
              {| armed_pins := [P1; logo]; armed_buttons := [buttonB] |})
    as (dev' & Hclear & Hpins & Hbuttons).
  exists dev'. split; [exact Hclear | split; [apply Hpins | apply Hbuttons]].
Defined.

(** The redirection succeeds and the frequency is refused with -1010. *)
Lemma i2c_init_first_failure_witness :
  DEVICE_OK (ErrorNo := codal_errno) = 0 /\
  microbit_hal_i2c_init (HE := codal_errno) 24 23 400000 [0; -1010] = Some (-1010, []).
Proof.
  split; [reflexivity |].
  destruct (i2c_init_first_failure (HE := codal_errno) 24 23 400000 scl sda [0; -1010]
              eq_refl eq_refl eq_refl)
    as (r & dev' & Hres & _ & Hsecond & _).
  destruct (Hsecond eq_refl) as [-> ->]. exact Hres.
Defined.

(** The redirection of the serial port is refused with -1001: the baud
    rate is not set. *)
Lemma uart_init_first_failure_witness :
  DEVICE_OK (ErrorNo := codal_errno) = 0 /\
  microbit_hal_uart_init (HE := codal_errno) 30 31 115200 8 0 1 [-1001; 0]
  = Some (-1001, [0]).
Proof.
  split; [reflexivity |].
  destruct (proj1 (uart_init_first_failure (HE := codal_errno) 30 31 115200 8 0 1
                     usbTx usbRx [-1001; 0] eq_refl eq_refl eq_refl))
    as (r & dev' & Hres & Hfirst & _).
  destruct (Hfirst ltac:(cbn; lia)) as [-> ->]. exact Hres.
Defined.

(** A first initialisation whose frequency is refused still leaves an SPI
    object. *)
Lemma spi_init_creates_object_witness :
  exists (r : Z) (s : unit) (dev' : list Z),
    microbit_hal_spi_init (HE := codal_errno) 13 15 14 1000000 8 0 None [-1001]
    = Some (r, Some s, dev') /\
    is_Some (microbit_hal_spi_transfer 2 [1; 2] None (Some s) dev').
Proof.
  destruct (spi_init_creates_object (HE := codal_errno) 13 15 14 1000000 8 0
              P13 P15 P14 None [-1001] eq_refl eq_refl eq_refl)
    as (r & s & dev' & Hres & _ & _ & Htransfer).
  exists r, s, dev'. split; [exact Hres |].
  apply (Htransfer 2 [1; 2] None dev').
Defined.

(** The draws 43981 (0xABCD) and 4660 (0x1234), the shifted one drawn
    second. *)
Lemma random_word_halves_witness :
  0 <= 43981 < 65536 /\ 0 <= 4660 < 65536 /\
  (rng_generate_random_word false [4660; 43981]).1 = 43981 * 65536 + 4660.
Proof.
  split; [lia | split; [lia |]].
  destruct (random_word_halves (HR := answers_random) false [4660; 43981]
              ltac:(cbn; lia) ltac:(cbn; lia))
    as [Hword _].
  exact Hword.
Defined.

(** The log store answers -1005, [DEVICE_NO_RESOURCES]: the caller sees
    [MICROBIT_HAL_DEVICE_NO_RESOURCES] and can tell. *)
Lemma log_result_decodes_witness :
  (microbit_hal_log_end_row (HE := codal_errno) (HH := port_header)
     (script [] 0 0 (-1005))).1
  = MICROBIT_HAL_DEVICE_NO_RESOURCES (HalHeader := port_header) /\
  ((microbit_hal_log_end_row (HE := codal_errno) (HH := port_header)
      (script [] 0 0 (-1005))).1
   = MICROBIT_HAL_DEVICE_NO_RESOURCES (HalHeader := port_header) <->
   (endRow (script [] 0 0 (-1005))).1 = DEVICE_NO_RESOURCES (ErrorNo := codal_errno)).
Proof.
  pose proof (log_result_decodes (HE := codal_errno) (HH := port_header)
                (script [] 0 0 (-1005)) "temp" "21"
                ltac:(cbn; lia) ltac:(cbn; lia) ltac:(cbn; lia) ltac:(cbn; lia))
    as Hall.
  pose proof (proj1 (List.Forall_forall _ _) Hall
                (endRow (script [] 0 0 (-1005)),
                 microbit_hal_log_end_row (HE := codal_errno) (HH := port_header)
                   (script [] 0 0 (-1005)))
                ltac:(cbn; tauto)) as (_ & _ & Hfull & _).
  split; [reflexivity | exact Hfull].
Defined.

(** A period of 20000 us set on pin 0 and read back. *)
Lemma set_then_get_analog_period_witness :
  microbit_hal_pin_set_analog_period_us (HE := codal_errno) (HM := run_mixer)
    0 20000 (script [] 0 (-1002) 0)
  = Some (0, script [] 0 20000 0) /\
  microbit_hal_pin_get_analog_period_us (HE := codal_errno) 0 (script [] 0 20000 0)
  = Some (20000, script [] 0 20000 0).
Proof.
  assert (Hset : microbit_hal_pin_set_analog_period_us (HE := codal_errno)
                   (HM := run_mixer) 0 20000 (script [] 0 (-1002) 0)
                 = Some (0, script [] 0 20000 0)) by (vm_compute; reflexivity).
  split; [exact Hset |].
  exact (set_then_get_analog_period (HE := codal_errno) (HM := run_mixer)
           0 20000 P0 (script [] 0 (-1002) 0) (script [] 0 20000 0)
           (fun d _ => eq_refl) ltac:(lia) ltac:(cbn; lia) ltac:(cbn; lia)
           eq_refl Hset).
Defined.
